(** * Copilot CLI SDK client runtime: sessions, tool dispatch, shutdown, query

    A shallow embedding of the TypeScript SDK under [copilot-sdk-nodejs]
    (client.ts, session.ts, query.ts, types.ts) and the properties its
    design document states about it.

    JavaScript values that cross the wire are kept untyped ([jsval]), since
    the source inspects them with [typeof] and [in].  Code that awaits,
    throws and catches is written in a state-and-exception monad [M] over a
    [World]: the session objects (a store indexed by object identity, so that
    the registry and a caller share one object), the client's fields, the
    caller's own state, and the log of every effect on the outside (requests
    sent, timers, process and socket operations, handler calls, yields).
    What the outside answers is an oracle [Env] that may depend on everything
    that happened before. *)

From Stdlib Require Import Ascii.
From stdpp Require Import base option list gmap strings pretty.

(** ** JavaScript values *)

#[warnings="-register-all"]
Inductive jsval : Type :=
| JUndefined
| JNull
| JBool (b : bool)
| JNum (n : Z)
| JStr (s : string)
| JArr (items : list jsval)
| JObj (fields : list (string * jsval)).

(** [typeof v] *)
Definition typeof (v : jsval) : string :=
  match v with
  | JUndefined => "undefined"
  | JNull => "object"
  | JBool _ => "boolean"
  | JNum _ => "number"
  | JStr _ => "string"
  | JArr _ | JObj _ => "object"
  end.

(** ToBoolean, as used by [!v], [v && ...] and [if (v)]. *)
Definition truthy (v : jsval) : bool :=
  match v with
  | JUndefined | JNull => false
  | JBool b => b
  | JNum n => negb (n =? 0)%Z
  | JStr s => negb (String.eqb s "")
  | JArr _ | JObj _ => true
  end.

Fixpoint assoc {A : Type} (k : string) (l : list (string * A)) : option A :=
  match l with
  | [] => None
  | (k', a) :: rest => if String.eqb k k' then Some a else assoc k rest
  end.

(** [v.k] for the keys this code reads ([sessionId], [toolCallId],
    [toolName], [arguments], [event], [type], [data], [ephemeral],
    [message]): none of them lives on a prototype, nor is an array index or
    [length], so only an object's own fields can answer. *)
Definition get_prop (k : string) (v : jsval) : jsval :=
  match v with
  | JObj fields => default JUndefined (assoc k fields)
  | _ => JUndefined
  end.

(** [k in v], for the same keys; the source guards every use by
    [typeof v === "object" && v]. *)
Definition js_in (k : string) (v : jsval) : bool :=
  match v with
  | JObj fields => bool_decide (is_Some (assoc k fields))
  | _ => false
  end.

Fixpoint join (sep : string) (l : list string) : string :=
  match l with
  | [] => ""
  | [s] => s
  | s :: rest => s +:+ sep +:+ join sep rest
  end.

(** [String(v)]; objects are plain, and numbers are the integers that
    JavaScript holds exactly and prints in full (below [2^53] in size). *)
Fixpoint js_String (v : jsval) : string :=
  match v with
  | JUndefined => "undefined"
  | JNull => "null"
  | JBool true => "true"
  | JBool false => "false"
  | JNum n => pretty n
  | JStr s => s
  | JArr items =>
      join "," (List.map (fun x => match x with
                                   | JUndefined | JNull => ""
                                   | _ => js_String x
                                   end) items)
  | JObj _ => "[object Object]"
  end.

(** [v === "s"] *)
Definition is_str (v : jsval) (s : string) : bool :=
  match v with
  | JStr s' => String.eqb s' s
  | _ => false
  end.

(** ** Errors and thrown values *)

Record JsError := mkError { err_name : string; err_message : string }.

(** [new Error(msg)] *)
Definition Error (msg : string) : JsError := mkError "Error" msg.

(** Anything can be thrown: an [Error] instance or another value. *)
Inductive thrown : Type :=
| TErr (e : JsError)
| TVal (v : jsval).

(** [error instanceof Error ? error.message : String(error)] *)
Definition thrown_message (t : thrown) : string :=
  match t with
  | TErr e => err_message e
  | TVal v => js_String v
  end.

(** [error instanceof Error ? error : new Error(String(error))] *)
Definition to_Error (t : thrown) : JsError :=
  match t with
  | TErr e => e
  | TVal v => Error (js_String v)
  end.

(** ** types.ts *)

Inductive ToolResultType := success | failure | rejected | denied.

Record ToolBinaryResult := {
  bin_data : string;
  bin_mimeType : string;
  bin_type : string;
  bin_description : option string
}.

Record ToolResultObject := {
  textResultForLlm : string;
  binaryResultsForLlm : option (list ToolBinaryResult);
  resultType : ToolResultType;
  error : option string;
  sessionLog : option string;
  toolTelemetry : option (list (string * jsval))
}.

(** [type ToolResult = string | ToolResultObject] *)
Inductive ToolResult :=
| TRString (s : string)
| TRObject (o : ToolResultObject).

Record ToolInvocation := {
  inv_sessionId : string;
  inv_toolCallId : string;
  inv_toolName : string;
  inv_arguments : jsval
}.

Record ToolCallResponsePayload := { result : ToolResult }.

Inductive ConnectionState := disconnected | connecting | connected | error_state.

(** ** The outside world *)

Inductive Effect : Type :=
| ESpawn (path : string) (args : list string)
| ESetTimeout (ms : Z)
| EClearTimeout
| EDelay (ms : Z)
| ERequest (method : string) (params : jsval)
| EConnect (port : Z) (host : string)
| EListen
| EDispose
| ESocketEnd
| ESocketDestroy
| EKill (signal : option string)
| EInvoke (handler : nat) (event : jsval)
| EToolInvoke (invocation : ToolInvocation)
| EYield (event : jsval).

Inductive Reply : Type :=
| Ack (payload : jsval)
| Nack (err : thrown).

(** What the spawned process does while the client waits for readiness. *)
Inductive ProcEvent : Type :=
| PData (chunk : string)
| PError (message : string)
| PExit (code : jsval)
| PTimer.

(** What the event iterator of [query] hands to the loop at each step. *)
Inductive IterItem : Type :=
| ItEvents (events : list jsval)
| ItThrow (e : thrown)
| ItAbort.

Record Env := {
  process_cwd : string;
  reply : list Effect → Reply;
  clock_ms : list Effect → Z;
  clock_iso : list Effect → string;
  proc_events : list Effect → list ProcEvent;
  abort_in_setup : bool;
  iter_script : list IterItem
}.

Section Runtime.

(** The caller's own state, which its handlers read and write, and the
    behaviour of everything outside the client. *)
Context {U : Type} (env : Env).

Inductive Res (A : Type) : Type :=
| Ok (a : A)
| Throw (e : thrown).
Global Arguments Ok {A} a.
Global Arguments Throw {A} e.

(** What a running handler does to the handler sets: [session.on(h)] on the
    session object [l], or a call of the function that [on] returned for
    [h]. *)
Inductive Subscription (H : Type) : Type :=
| Subscribe (l : nat) (h : H)
| Unsubscribe (l : nat) (h : H).

Global Arguments Subscribe {H} l h.
Global Arguments Unsubscribe {H} l h.

(** [type SessionEventHandler = (event) => void]; [h_id] is the identity of
    the function object, which is what a [Set] compares.  Called with an
    event in the caller's state, the handler changes that state and returns
    or throws ([h_call]), and subscribes or unsubscribes handlers on the way
    ([h_subs]). *)
#[warnings="-register-all"]
Inductive SessionEventHandler : Type := mkHandler {
  h_id : nat;
  h_call : jsval → U → Res () * U;
  h_subs : jsval → U → list (Subscription SessionEventHandler)
}.

(** [type ToolHandler = (invocation) => Promise<ToolResult> | ToolResult];
    [None] is [undefined] (or [null]); a rejected promise is a throw at the
    [await]. *)
Definition ToolHandler : Type := ToolInvocation → U → Res (option ToolResult) * U.

Record Tool := {
  tool_name : string;
  tool_description : string;
  tool_parameters : option jsval;
  tool_handler : ToolHandler
}.

(** ** session.ts: class CopilotSession *)

Record CopilotSession := {
  sessionId : string;
  eventHandlers : list SessionEventHandler;
  toolHandlers : gmap string ToolHandler
}.

Record CopilotClientOptions := {
  cliPath : string;
  cliArgs : list string;
  cwd : string;
  port : Z;
  useStdio : bool;
  logLevel : string;
  autoStart : bool;
  autoRestart : bool
}.

(** ** client.ts: the fields of class CopilotClient

    [sessions] is a [Map]: iteration follows insertion order, so it is a
    list of key and object identity. *)
Record CopilotClient := {
  cliProcess : option (string * list string);
  connection : bool;
  socket : bool;
  actualPort : option Z;
  state : ConnectionState;
  sessions : list (string * nat);
  options : CopilotClientOptions
}.

Record World := {
  heap : nat → CopilotSession;
  next_loc : nat;
  client : CopilotClient;
  user : U;
  trace : list Effect
}.

Definition M (A : Type) : Type := World → Res A * World.

Definition ret {A} (a : A) : M A := fun w => (Ok a, w).

Definition bind {A B} (m : M A) (k : A → M B) : M B :=
  fun w => match m w with
           | (Ok a, w') => k a w'
           | (Throw e, w') => (Throw e, w')
           end.

Definition throw {A} (e : thrown) : M A := fun w => (Throw e, w).

(** [try { m } catch (error) { h error }] *)
Definition try_catch {A} (m : M A) (h : thrown → M A) : M A :=
  fun w => match m w with
           | (Ok a, w') => (Ok a, w')
           | (Throw e, w') => h e w'
           end.

Notation "'let!' x ':=' m 'in' k" := (bind m (fun x => k))
  (at level 10, x name, m at level 100, k at level 200).
Notation "m '>>' k" := (bind m (fun _ => k))
  (at level 100, k at level 200, right associativity).

Definition get_world : M World := fun w => (Ok w, w).

Definition set_heap (h : nat → CopilotSession) (w : World) : World :=
  {| heap := h; next_loc := next_loc w; client := client w;
     user := user w; trace := trace w |}.

Definition set_next_loc (n : nat) (w : World) : World :=
  {| heap := heap w; next_loc := n; client := client w;
     user := user w; trace := trace w |}.

Definition set_client (c : CopilotClient) (w : World) : World :=
  {| heap := heap w; next_loc := next_loc w; client := c;
     user := user w; trace := trace w |}.

Definition set_user (u : U) (w : World) : World :=
  {| heap := heap w; next_loc := next_loc w; client := client w;
     user := u; trace := trace w |}.

Definition set_trace (t : list Effect) (w : World) : World :=
  {| heap := heap w; next_loc := next_loc w; client := client w;
     user := user w; trace := t |}.

Definition modify (f : World → World) : M () := fun w => (Ok (), f w).

(** An effect whose outcome the code does not wait on or that cannot fail. *)
Definition log (eff : Effect) : M () :=
  modify (fun w => set_trace (trace w ++ [eff]) w).

(** An effect that the outside answers: a value, or a throw (a rejected
    promise at an [await]). *)
Definition external (eff : Effect) : M jsval :=
  fun w =>
    let t := trace w ++ [eff] in
    match reply env t with
    | Ack v => (Ok v, set_trace t w)
    | Nack e => (Throw e, set_trace t w)
    end.

(** [connection.sendRequest(method, params)] *)
Definition sendRequest (method : string) (params : jsval) : M jsval :=
  external (ERequest method params).

Definition get_session (l : nat) : M CopilotSession :=
  fun w => (Ok (heap w l), w).

Definition put_session (l : nat) (s : CopilotSession) : M () :=
  modify (fun w => set_heap (fun l' => if decide (l' = l) then s else heap w l') w).

Definition get_client : M CopilotClient := fun w => (Ok (client w), w).

(** *** CopilotSession *)

Record MessageOptions := {
  prompt : string;
  attachments : jsval;
  mode : jsval
}.

Definition send (l : nat) (options : MessageOptions) : M jsval :=
  let! s := get_session l in
  let! response := sendRequest "session.send"
    (JObj [("sessionId", JStr (sessionId s)); ("prompt", JStr (prompt options));
           ("attachments", attachments options); ("mode", mode options)]) in
  ret (get_prop "messageId" response).

(** [Set.prototype.add] and [Set.prototype.delete] on function objects. *)
Definition set_add (h : SessionEventHandler) (hs : list SessionEventHandler) :=
  if existsb (fun h' => Nat.eqb (h_id h') (h_id h)) hs then hs else hs ++ [h].

Definition set_delete (h : SessionEventHandler) (hs : list SessionEventHandler) :=
  List.filter (fun h' => negb (Nat.eqb (h_id h') (h_id h))) hs.

Definition on (l : nat) (handler : SessionEventHandler) : M () :=
  let! s := get_session l in
  put_session l {| sessionId := sessionId s;
                   eventHandlers := set_add handler (eventHandlers s);
                   toolHandlers := toolHandlers s |}.

(** The function [on] returns. *)
Definition unsubscribe (l : nat) (handler : SessionEventHandler) : M () :=
  let! s := get_session l in
  put_session l {| sessionId := sessionId s;
                   eventHandlers := set_delete handler (eventHandlers s);
                   toolHandlers := toolHandlers s |}.

(** [handler(event)]: the call is logged, the handler runs on the caller's
    state and returns or throws. *)
Definition call_handler (h : SessionEventHandler) (event : jsval) : M () :=
  log (EInvoke (h_id h) event) >>
  fun w => let '(r, u) := h_call h event (user w) in (r, set_user u w).

(** One subscription made by a handler that runs inside the loop of
    [_dispatchEvent] on the session object [l], which has [pending] still to
    visit.  The loop iterates the live [Set]: a handler added to it during
    the loop is visited too, after the others, and one deleted from it
    before its turn is not visited. *)
Definition perform (l : nat) (st : World * list SessionEventHandler)
    (a : Subscription SessionEventHandler) : World * list SessionEventHandler :=
  let '(w, pending) := st in
  match a with
  | Subscribe l' h =>
      ((on l' h w).2,
       if Nat.eqb l' l
          && negb (existsb (fun h' => Nat.eqb (h_id h') (h_id h))
                           (eventHandlers (heap w l)))
       then pending ++ [h]
       else pending)
  | Unsubscribe l' h =>
      ((unsubscribe l' h w).2,
       if Nat.eqb l' l then set_delete h pending else pending)
  end.

(** [for (const handler of this.eventHandlers) { try { handler(event) }
    catch { } }] with [pending] still to visit.  Handlers that keep
    subscribing new handlers keep the loop going for ever: [None] is a loop
    that has not come to its end within [fuel] calls. *)
Fixpoint dispatch_loop (fuel : nat) (l : nat) (pending : list SessionEventHandler)
    (event : jsval) (w : World) : option (Res () * World) :=
  match pending with
  | [] => Some (Ok (), w)
  | handler :: rest =>
      match fuel with
      | 0 => None
      | S fuel' =>
          let subs := h_subs handler event (user w) in
          let '(_, w) := try_catch (call_handler handler event) (fun _error => ret ()) w in
          let '(w, rest) := fold_left (perform l) subs (w, rest) in
          dispatch_loop fuel' l rest event w
      end
  end.

Definition _dispatchEvent (fuel : nat) (l : nat) (event : jsval) (w : World)
    : option (Res () * World) :=
  dispatch_loop fuel l (eventHandlers (heap w l)) event w.

Fixpoint register_loop (tools : list Tool) (m : gmap string ToolHandler) :=
  match tools with
  | [] => m
  | tool :: rest => register_loop rest (<[tool_name tool := tool_handler tool]> m)
  end.

Definition registerTools (l : nat) (tools : option (list Tool)) : M () :=
  let! s := get_session l in
  put_session l {| sessionId := sessionId s;
                   eventHandlers := eventHandlers s;
                   toolHandlers := match tools with
                                   | None => ∅
                                   | Some tools => register_loop tools ∅
                                   end |}.

Definition getToolHandler (l : nat) (name : string) : M (option ToolHandler) :=
  let! s := get_session l in
  ret (toolHandlers s !! name).

Definition destroy (l : nat) : M () :=
  let! s := get_session l in
  sendRequest "session.destroy" (JObj [("sessionId", JStr (sessionId s))]) >>
  put_session l {| sessionId := sessionId s;
                   eventHandlers := [];
                   toolHandlers := ∅ |}.

(** *** CopilotClient: readiness of the spawned process *)

Definition is_digit (c : ascii) : bool :=
  let n := nat_of_ascii c in (48 <=? n) && (n <=? 57).

(** Case folding of the [i] flag; without the [u] flag only the ASCII
    letters fold onto ASCII letters. *)
Definition fold_case (c : ascii) : ascii :=
  let n := nat_of_ascii c in
  if (65 <=? n) && (n <=? 90) then ascii_of_nat (n + 32) else c.

(** What is left of [s] after [pat] matched at its start, ignoring case. *)
Fixpoint match_prefix_ci (pat s : string) : option string :=
  match pat, s with
  | EmptyString, _ => Some s
  | String p pat', String c s' =>
      if Ascii.eqb (fold_case p) (fold_case c) then match_prefix_ci pat' s' else None
  | String _ _, EmptyString => None
  end.

(** The longest run of digits at the start of [s]: a greedy [\d+]. *)
Fixpoint take_digits (s : string) : string :=
  match s with
  | String c s' => if is_digit c then String c (take_digits s') else EmptyString
  | EmptyString => EmptyString
  end.

(** [s.match(/listening on port (\d+)/i)]: group 1 of the leftmost match. *)
Fixpoint match_port (s : string) : option string :=
  let here :=
    match match_prefix_ci "listening on port " s with
    | Some rest =>
        match take_digits rest with
        | EmptyString => None
        | digits => Some digits
        end
    | None => None
    end in
  match here with
  | Some digits => Some digits
  | None => match s with
            | String _ s' => match_port s'
            | EmptyString => None
            end
  end.

(** [parseInt(digits, 10)] on a run of digits; exact, where the source
    rounds a run that denotes more than [2^53] to a double. *)
Fixpoint parse_digits (acc : Z) (s : string) : Z :=
  match s with
  | String c s' => parse_digits (10 * acc + (Z.of_nat (nat_of_ascii c) - 48)) s'
  | EmptyString => acc
  end.

Definition parseInt (digits : string) : Z := parse_digits 0 digits.

(** The variables the executor of [startCLIServer] closes over, and how the
    promise was settled. *)
Record Readiness := {
  stdout : string;
  resolved : bool;
  seenPort : option Z;
  settled : option (Res ());
  reconnects : nat
}.

Definition spawned (useStdio : bool) : Readiness :=
  {| stdout := ""; resolved := useStdio; seenPort := None;
     settled := if useStdio then Some (Ok ()) else None; reconnects := 0 |}.

(** One run of a listener: [stdout.on("data")] (attached in TCP mode only),
    [on("error")], [on("exit")], and the callback of the 10 second timer. *)
Definition on_event (o : CopilotClientOptions) (st : ConnectionState)
    (r : Readiness) (ev : ProcEvent) : Readiness :=
  match ev with
  | PData chunk =>
      if useStdio o then r
      else
        let stdout' := stdout r +:+ chunk in
        match match_port stdout' with
        | Some digits =>
            if negb (resolved r)
            then {| stdout := stdout'; resolved := true;
                    seenPort := Some (parseInt digits);
                    settled := Some (Ok ()); reconnects := reconnects r |}
            else {| stdout := stdout'; resolved := resolved r;
                    seenPort := seenPort r; settled := settled r;
                    reconnects := reconnects r |}
        | None => {| stdout := stdout'; resolved := resolved r;
                     seenPort := seenPort r; settled := settled r;
                     reconnects := reconnects r |}
        end
  | PError message =>
      if negb (resolved r)
      then {| stdout := stdout r; resolved := true; seenPort := seenPort r;
              settled := Some (Throw (TErr (Error ("Failed to start CLI server: " +:+ message))));
              reconnects := reconnects r |}
      else r
  | PExit code =>
      if negb (resolved r)
      then {| stdout := stdout r; resolved := true; seenPort := seenPort r;
              settled := Some (Throw (TErr (Error ("CLI server exited with code " +:+ js_String code))));
              reconnects := reconnects r |}
      else if autoRestart o && match st with connected => true | _ => false end
      then {| stdout := stdout r; resolved := resolved r; seenPort := seenPort r;
              settled := settled r; reconnects := S (reconnects r) |}
      else r
  | PTimer =>
      if negb (resolved r)
      then {| stdout := stdout r; resolved := true; seenPort := seenPort r;
              settled := Some (Throw (TErr (Error "Timeout waiting for CLI server to start")));
              reconnects := reconnects r |}
      else r
  end.

(** The listeners run on what the process does; the timer is armed on every
    call, so it has fired by the time nothing else is left to happen. *)
Definition await_ready (o : CopilotClientOptions) (st : ConnectionState)
    (events : list ProcEvent) : Readiness :=
  fold_left (on_event o st) (events ++ [PTimer]) (spawned (useStdio o)).

Definition set_cliProcess (p : option (string * list string)) (c : CopilotClient) :=
  {| cliProcess := p; connection := connection c; socket := socket c;
     actualPort := actualPort c; state := state c; sessions := sessions c;
     options := options c |}.

Definition set_connection (b : bool) (c : CopilotClient) :=
  {| cliProcess := cliProcess c; connection := b; socket := socket c;
     actualPort := actualPort c; state := state c; sessions := sessions c;
     options := options c |}.

Definition set_socket (b : bool) (c : CopilotClient) :=
  {| cliProcess := cliProcess c; connection := connection c; socket := b;
     actualPort := actualPort c; state := state c; sessions := sessions c;
     options := options c |}.

Definition set_actualPort (p : option Z) (c : CopilotClient) :=
  {| cliProcess := cliProcess c; connection := connection c; socket := socket c;
     actualPort := p; state := state c; sessions := sessions c;
     options := options c |}.

Definition set_state (st : ConnectionState) (c : CopilotClient) :=
  {| cliProcess := cliProcess c; connection := connection c; socket := socket c;
     actualPort := actualPort c; state := st; sessions := sessions c;
     options := options c |}.

Definition set_sessions (ss : list (string * nat)) (c : CopilotClient) :=
  {| cliProcess := cliProcess c; connection := connection c; socket := socket c;
     actualPort := actualPort c; state := state c; sessions := ss;
     options := options c |}.

Definition update_client (f : CopilotClient → CopilotClient) : M () :=
  modify (fun w => set_client (f (client w)) w).

Definition startCLIServer : M () :=
  let! c := get_client in
  let o := options c in
  let args := cliArgs o ++ ["--server"; "--log-level"; logLevel o] ++
              (if useStdio o then ["--stdio"]
               else if (port o >? 0)%Z then ["--port"; pretty (port o)] else []) in
  log (ESpawn (cliPath o) args) >>
  update_client (set_cliProcess (Some (cliPath o, args))) >>
  log (ESetTimeout 10000) >>
  let! w := get_world in
  let r := await_ready o (state c) (proc_events env (trace w)) in
  match seenPort r with
  | Some p => update_client (set_actualPort (Some p))
  | None => ret ()
  end >>
  match settled r with
  | Some (Throw e) => throw e
  | _ => ret ()
  end.

Definition connectViaStdio : M () :=
  let! c := get_client in
  match cliProcess c with
  | None => throw (TErr (Error "CLI process not started"))
  | Some _ =>
      update_client (set_connection true) >>
      log EListen
  end.

(** [socket.connect] refuses a port outside 0..65535 with a [RangeError],
    thrown inside the executor before anything is dialled: it rejects the
    promise as it is, not rewrapped by the [error] listener. *)
Definition connectViaTcp : M () :=
  let! c := get_client in
  match actualPort c with
  | None | Some 0%Z => throw (TErr (Error "Server port not available"))
  | Some p =>
      update_client (set_socket true) >>
      if (p <? 0)%Z || (65536 <=? p)%Z
      then throw (TErr (mkError "RangeError"
             ("Port should be >= 0 and < 65536. Received type number (" +:+
              pretty p +:+ ").")))
      else
        try_catch
          (external (EConnect p "localhost") >>
           update_client (set_connection true) >>
           log EListen)
          (fun error =>
             throw (TErr (Error ("Failed to connect to CLI server: " +:+ thrown_message error))))
  end.

Definition connectToServer : M () :=
  let! c := get_client in
  if useStdio (options c) then connectViaStdio else connectViaTcp.

Definition start : M () :=
  let! c := get_client in
  match state c with
  | connected => ret ()
  | _ =>
      update_client (set_state connecting) >>
      try_catch
        (startCLIServer >>
         connectToServer >>
         update_client (set_state connected))
        (fun error =>
           update_client (set_state error_state) >>
           throw error)
  end.

(** *** CopilotClient: shutdown *)

(** The body of [for (let attempt = 1; attempt <= 3; attempt++)], with
    [remaining] iterations to go, so that [attempt = 4 - remaining]. *)
Fixpoint destroy_attempts (remaining : nat) (lastError : option JsError)
    (session : nat) : M (option JsError) :=
  match remaining with
  | 0 => ret lastError
  | S remaining' =>
      let attempt := (4 - Z.of_nat remaining)%Z in
      try_catch
        (destroy session >>
         ret None)
        (fun error =>
           let lastError := Some (to_Error error) in
           (if (attempt <? 3)%Z
            then log (EDelay (100 * 2 ^ (attempt - 1)))
            else ret ()) >>
           destroy_attempts remaining' lastError session)
  end.

(** The body of [for (const session of this.sessions.values())]. *)
Fixpoint destroy_sessions (ss : list (string * nat)) (errors : list JsError)
    : M (list JsError) :=
  match ss with
  | [] => ret errors
  | (_, session) :: rest =>
      let! s := get_session session in
      let sessionId := sessionId s in
      let! lastError := destroy_attempts 3 None session in
      let errors :=
        match lastError with
        | Some lastError =>
            errors ++ [Error ("Failed to destroy session " +:+ sessionId +:+
                              " after 3 attempts: " +:+ err_message lastError)]
        | None => errors
        end in
      destroy_sessions rest errors
  end.

(** [try { op } catch (error) { errors.push(new Error(`${what}: ${message}`)) }] *)
Definition guarded (eff : Effect) (what : string) (errors : list JsError)
    : M (list JsError) :=
  try_catch
    (external eff >>
     ret errors)
    (fun error => ret (errors ++ [Error (what +:+ ": " +:+ thrown_message error)])).

Definition stop : M (list JsError) :=
  let errors := [] in
  let! c := get_client in
  let! errors := destroy_sessions (sessions c) errors in
  update_client (set_sessions []) >>
  let! c := get_client in
  let! errors :=
    (if connection c
     then let! errors := guarded EDispose "Failed to dispose connection" errors in
          update_client (set_connection false) >>
          ret errors
     else ret errors) in
  let! c := get_client in
  let! errors :=
    (if socket c
     then let! errors := guarded ESocketEnd "Failed to close socket" errors in
          update_client (set_socket false) >>
          ret errors
     else ret errors) in
  let! c := get_client in
  let! errors :=
    (match cliProcess c with
     | Some _ =>
         let! errors := guarded (EKill None) "Failed to kill CLI process" errors in
         update_client (set_cliProcess None) >>
         ret errors
     | None => ret errors
     end) in
  update_client (set_state disconnected) >>
  update_client (set_actualPort None) >>
  ret errors.

(** *** CopilotClient: sessions *)

Record SessionConfig := {
  cfg_sessionId : option string;
  cfg_model : option string;
  cfg_tools : option (list Tool)
}.

Definition opt_str (o : option string) : jsval :=
  match o with
  | Some s => JStr s
  | None => JUndefined
  end.

(** [Map.prototype.set]: a known key keeps its place. *)
Fixpoint map_set (k : string) (v : nat) (m : list (string * nat)) :=
  match m with
  | [] => [(k, v)]
  | (k', v') :: rest =>
      if String.eqb k k' then (k, v) :: rest else (k', v') :: map_set k v rest
  end.

(** [(response as { sessionId: string }).sessionId]: the cast is unchecked;
    the protocol has the reply carry a string, and a reply that does not is
    taken by its text, which is how the source would print it. *)
Definition as_string (v : jsval) : string :=
  match v with
  | JStr s => s
  | _ => js_String v
  end.

(** Reading [sessionId] off a reply that is [null] or [undefined] throws a
    [TypeError], and nothing is registered. *)
Definition createSession (config : SessionConfig) : M nat :=
  let! c := get_client in
  (if connection c then ret ()
   else if autoStart (options c) then start
   else throw (TErr (Error "Client not connected. Call start() first."))) >>
  let! response := sendRequest "session.create"
    (JObj [("model", opt_str (cfg_model config));
           ("sessionId", opt_str (cfg_sessionId config));
           ("tools", match cfg_tools config with
                     | Some tools =>
                         JArr (List.map (fun tool =>
                           JObj [("name", JStr (tool_name tool));
                                 ("description", JStr (tool_description tool));
                                 ("parameters", default JUndefined (tool_parameters tool))])
                           tools)
                     | None => JUndefined
                     end)]) in
  match response with
  | JNull | JUndefined =>
      throw (TErr (mkError "TypeError"
        ("Cannot read properties of " +:+ js_String response +:+
         " (reading 'sessionId')")))
  | _ =>
      let sessionId := as_string (get_prop "sessionId" response) in
      let! w := get_world in
      let session := next_loc w in
      modify (set_next_loc (S session)) >>
      put_session session {| sessionId := sessionId; eventHandlers := []; toolHandlers := ∅ |} >>
      registerTools session (cfg_tools config) >>
      let! c := get_client in
      update_client (set_sessions (map_set sessionId session (sessions c))) >>
      ret session
  end.

(** *** CopilotClient: inbound notifications and requests *)

Definition handleSessionEventNotification (fuel : nat) (notification : jsval)
    (w : World) : option (Res () * World) :=
  if negb (String.eqb (typeof notification) "object")
     || negb (truthy notification)
     || negb (js_in "sessionId" notification)
     || negb (String.eqb (typeof (get_prop "sessionId" notification)) "string")
     || negb (js_in "event" notification)
  then Some (Ok (), w)
  else
    match assoc (as_string (get_prop "sessionId" notification)) (sessions (client w)) with
    | Some session => _dispatchEvent fuel session (get_prop "event" notification) w
    | None => Some (Ok (), w)
    end.

Definition normalizeToolResult (result : option ToolResult) : ToolResult :=
  match result with
  | None =>
      TRObject {| textResultForLlm := "Tool returned no result";
                  binaryResultsForLlm := None;
                  resultType := failure;
                  error := Some "tool returned no result";
                  sessionLog := None;
                  toolTelemetry := Some [] |}
  | Some result => result
  end.

Definition buildUnsupportedToolResult (toolName : string) : ToolResult :=
  TRObject {| textResultForLlm := "Tool '" +:+ toolName +:+ "' is not supported by this client instance.";
              binaryResultsForLlm := None;
              resultType := failure;
              error := Some ("tool '" +:+ toolName +:+ "' not supported");
              sessionLog := None;
              toolTelemetry := Some [] |}.

(** [await handler(invocation)] *)
Definition call_tool (handler : ToolHandler) (invocation : ToolInvocation)
    : M (option ToolResult) :=
  log (EToolInvoke invocation) >>
  fun w => let '(r, u) := handler invocation (user w) in (r, set_user u w).

(** The invocation object [executeToolCall] hands to the handler; by then
    the three identifying fields are known to be strings. *)
Definition invocation_of (request : jsval) : ToolInvocation :=
  {| inv_sessionId := as_string (get_prop "sessionId" request);
     inv_toolCallId := as_string (get_prop "toolCallId" request);
     inv_toolName := as_string (get_prop "toolName" request);
     inv_arguments := get_prop "arguments" request |}.

Definition executeToolCall (handler : ToolHandler) (request : jsval)
    : M ToolCallResponsePayload :=
  try_catch
    (let! result := call_tool handler (invocation_of request) in
     ret {| result := normalizeToolResult result |})
    (fun error =>
       let message := thrown_message error in
       ret {| result := TRObject {| textResultForLlm := message;
                                    binaryResultsForLlm := None;
                                    resultType := failure;
                                    error := Some message;
                                    sessionLog := None;
                                    toolTelemetry := Some [] |} |}).

Definition handleToolCallRequest (params : jsval) : M ToolCallResponsePayload :=
  if negb (truthy params)
     || negb (String.eqb (typeof (get_prop "sessionId" params)) "string")
     || negb (String.eqb (typeof (get_prop "toolCallId" params)) "string")
     || negb (String.eqb (typeof (get_prop "toolName" params)) "string")
  then throw (TErr (Error "Invalid tool call payload"))
  else
    let! c := get_client in
    match assoc (as_string (get_prop "sessionId" params)) (sessions c) with
    | None =>
        throw (TErr (Error ("Unknown session " +:+ as_string (get_prop "sessionId" params))))
    | Some session =>
        let! handler := getToolHandler session (as_string (get_prop "toolName" params)) in
        match handler with
        | None =>
            ret {| result := buildUnsupportedToolResult (as_string (get_prop "toolName" params)) |}
        | Some handler => executeToolCall handler params
        end
    end.

(** *** CopilotClient: constructor *)

Record CopilotClientOptionsIn := {
  in_cliPath : option string;
  in_cliArgs : option (list string);
  in_cwd : option string;
  in_port : option Z;
  in_useStdio : option bool;
  in_logLevel : option string;
  in_autoStart : option bool;
  in_autoRestart : option bool
}.

(** [o || d] on an optional string: absent and empty both give [d]. *)
Definition str_or (o : option string) (d : string) : string :=
  match o with
  | Some s => if String.eqb s "" then d else s
  | None => d
  end.

Definition new_CopilotClient (o : CopilotClientOptionsIn) : CopilotClient :=
  {| cliProcess := None;
     connection := false;
     socket := false;
     actualPort := None;
     state := disconnected;
     sessions := [];
     options :=
       {| cliPath := str_or (in_cliPath o) "copilot";
          cliArgs := default [] (in_cliArgs o);
          cwd := default (process_cwd env) (in_cwd o);
          port := match in_port o with
                  | Some p => if (p =? 0)%Z then 0%Z else p
                  | None => 0%Z
                  end;
          useStdio := default true (in_useStdio o);
          logLevel := str_or (in_logLevel o) "info";
          autoStart := default true (in_autoStart o);
          autoRestart := default true (in_autoRestart o) |} |}.

(** ** query.ts *)

Record QueryOptions := {
  q_prompt : string;
  q_model : option string;
  q_cliPath : option string;
  q_cliArgs : option (list string);
  q_cwd : option string;
  q_logLevel : option string;
  q_attachments : jsval;
  q_timeout : option Z;
  q_includeEphemeral : option bool;
  q_tools : option (list Tool)
}.

(** What the consumer of the generator does when it is handed a value:
    [next()], [return()] (a [break] out of [for await]) or [throw(e)]. *)
Inductive ConsumerAction :=
| CNext
| CReturn
| CThrow (e : thrown).

Definition Consumer : Type := jsval → U → ConsumerAction * U.

(** How a block of the generator ends. *)
Inductive Completion :=
| Normal
| Returning
| Throwing (e : thrown).

(** The local variables of [query] that outlive the [try] block. *)
Record QueryLocals := {
  session : option nat;
  aborted : bool;
  turnFinished : bool
}.

Definition AbortError : JsError := mkError "AbortError" "The operation was aborted".

(** [yield event] *)
Definition yield_ (consumer : Consumer) (event : jsval) (w : World)
    : ConsumerAction * World :=
  let w := set_trace (trace w ++ [EYield event]) w in
  let '(a, u) := consumer event (user w) in
  (a, set_user u w).

(** The handler [query] subscribes: [(event) => eventEmitter.emit("data", event)].
    It queues the event for the iterator; what the iterator then delivers is
    [iter_script]. *)
Definition bridge : SessionEventHandler :=
  {| h_id := 0; h_call := fun _ u => (Ok (), u); h_subs := fun _ _ => [] |}.

(** [for await (const events of eventIterator) { ... }]; the result says
    how the loop ended and whether the abort signal has fired.  The timer
    stays armed during the whole loop, so it fires once nothing else
    arrives. *)
Fixpoint event_loop (consumer : Consumer) (includeEphemeral : bool)
    (script : list IterItem) (w : World) : (Completion * bool) * World :=
  match script with
  | [] | ItAbort :: _ => ((Throwing (TErr AbortError), true), w)
  | ItThrow e :: _ => ((Throwing e, false), w)
  | ItEvents events :: rest =>
      match events with
      | [event] =>
          match event with
          | JUndefined | JNull =>
              ((Throwing (TErr (mkError "TypeError"
                  ("Cannot read properties of " +:+ js_String event +:+
                   " (reading 'ephemeral')"))), false), w)
          | _ =>
              if truthy (get_prop "ephemeral" event) && negb includeEphemeral
              then event_loop consumer includeEphemeral rest w
              else if is_str (get_prop "type" event) "session.error"
              then
                let data := get_prop "data" event in
                ((Throwing (TErr (Error
                    (if String.eqb (typeof data) "object" && truthy data
                        && js_in "message" data
                     then js_String (get_prop "message" data)
                     else "Unknown error"))), false), w)
              else
                match yield_ consumer event w with
                | (CNext, w') =>
                    if is_str (get_prop "type" event) "session.idle"
                    then ((Normal, false), w')
                    else event_loop consumer includeEphemeral rest w'
                | (CReturn, w') => ((Returning, false), w')
                | (CThrow e, w') => ((Throwing e, false), w')
                end
          end
      | _ =>
          ((Throwing (TErr (Error ("Expected single event, got " +:+
                                   pretty (length events)))), false), w)
      end
  end.

(** The [try] block. *)
Definition query_try (o : QueryOptions) (consumer : Consumer) (w : World)
    : (Completion * QueryLocals) * World :=
  let includeEphemeral := default true (q_includeEphemeral o) in
  match start w with
  | (Throw e, w) =>
      ((Throwing e, {| session := None; aborted := abort_in_setup env;
                       turnFinished := false |}), w)
  | (Ok _, w) =>
      match createSession {| cfg_sessionId := None; cfg_model := q_model o;
                             cfg_tools := q_tools o |} w with
      | (Throw e, w) =>
          ((Throwing e, {| session := None; aborted := abort_in_setup env;
                           turnFinished := false |}), w)
      | (Ok s, w) =>
          let '(_, w) := on s bridge w in
          if abort_in_setup env
          then ((Throwing (TErr AbortError),
                 {| session := Some s; aborted := true; turnFinished := false |}), w)
          else
            let '(_, w) :=
              log (ERequest "session.send"
                     (JObj [("sessionId", JStr (sessionId (heap w s)));
                            ("prompt", JStr (q_prompt o));
                            ("attachments", q_attachments o);
                            ("mode", JUndefined)])) w in
            let '((c, a), w) := event_loop consumer includeEphemeral (iter_script env) w in
            ((c, {| session := Some s; aborted := a; turnFinished := false |}), w)
      end
  end.

(** The [catch] block: a throw out of [try] is rethrown, as a timeout when
    the signal has fired and the error is the iterator's abort. *)
Definition query_catch (timeout : Z) (c : Completion) (l : QueryLocals) : Completion :=
  match c with
  | Throwing err =>
      Throwing
        (if aborted l
            && match err with
               | TErr e => String.eqb (err_name e) "AbortError"
               | TVal _ => false
               end
         then TErr (Error ("Query timed out after " +:+ pretty timeout +:+ "ms"))
         else err)
  | _ => c
  end.

(** The [finally] block; a throw inside it replaces the pending completion. *)
Definition query_finally (consumer : Consumer) (c : Completion) (l : QueryLocals)
    (w : World) : (Completion * QueryLocals) * World :=
  let l := {| session := session l; aborted := aborted l; turnFinished := true |} in
  let '(_, w) := log EClearTimeout w in
  match (match session l with
         | Some s => destroy s
         | None => ret ()
         end) w with
  | (Throw e, w) => ((Throwing e, l), w)
  | (Ok _, w) =>
      match stop w with
      | (Throw e, w) => ((Throwing e, l), w)
      | (Ok cleanupErrors, w) =>
          if (0 <? length cleanupErrors)%nat
          then
            match yield_ consumer
                    (JObj [("type", JStr "error");
                           ("id", JStr ("error-" +:+ pretty (clock_ms env (trace w))));
                           ("data", JObj [("message",
                              JStr ("Cleanup errors: " +:+
                                    join "; " (List.map err_message cleanupErrors)))]);
                           ("timestamp", JStr (clock_iso env (trace w)))]) w with
            | (CNext, w) => ((c, l), w)
            | (CReturn, w) => ((Returning, l), w)
            | (CThrow e, w) => ((Throwing e, l), w)
            end
          else ((c, l), w)
      end
  end.

Definition query (o : QueryOptions) (consumer : Consumer) (w : World)
    : (Completion * QueryLocals) * World :=
  let timeout := default 60000%Z (q_timeout o) in
  let w := set_client (new_CopilotClient
             {| in_cliPath := q_cliPath o; in_cliArgs := q_cliArgs o;
                in_cwd := q_cwd o; in_port := None; in_useStdio := None;
                in_logLevel := Some (default "error" (q_logLevel o));
                in_autoStart := None; in_autoRestart := None |}) w in
  let '(_, w) := log (ESetTimeout timeout) w in
  let '((c, l), w) := query_try o consumer w in
  query_finally consumer (query_catch timeout c l) l w.

(** ** The rest of session.ts and client.ts *)

(** [CopilotSession.getMessages] *)
Definition getMessages (l : nat) : M jsval :=
  let! s := get_session l in
  let! response := sendRequest "session.getMessages"
    (JObj [("sessionId", JStr (sessionId s))]) in
  ret (get_prop "events" response).

(** [try { op } catch { }] *)
Definition swallowed (eff : Effect) : M () :=
  try_catch
    (external eff >>
     ret ())
    (fun _ => ret ()).

(** [CopilotClient.forceStop] *)
Definition forceStop : M () :=
  update_client (set_sessions []) >>
  let! c := get_client in
  (if connection c
   then swallowed EDispose >>
        update_client (set_connection false)
   else ret ()) >>
  let! c := get_client in
  (if socket c
   then swallowed ESocketDestroy >>
        update_client (set_socket false)
   else ret ()) >>
  let! c := get_client in
  (match cliProcess c with
   | Some _ =>
       swallowed (EKill (Some "SIGKILL")) >>
       update_client (set_cliProcess None)
   | None => ret ()
   end) >>
  update_client (set_state disconnected) >>
  update_client (set_actualPort None).

(** [CopilotClient.getState] *)
Definition getState : M ConnectionState :=
  let! c := get_client in
  ret (state c).

(** [CopilotClient.ping] *)
Definition ping (message : option string) : M jsval :=
  let! c := get_client in
  if connection c
  then sendRequest "ping" (JObj [("message", opt_str message)])
  else throw (TErr (Error "Client not connected")).

(** [CopilotClient.reconnect] *)
Definition reconnect : M () :=
  update_client (set_state disconnected) >>
  try_catch
    (stop >>
     start)
    (fun _error => ret ()).

End Runtime.

(** ** Vocabulary of the design document

    The definitions below follow the words of the design document, not the
    code; the theorems compare the two. *)

Definition acked (r : Reply) : bool :=
  match r with
  | Ack _ => true
  | Nack _ => false
  end.

(** A payload that is an object whose field [k] holds the string [s]. *)
Definition string_field (k : string) (payload : jsval) (s : string) : Prop :=
  ∃ fields, payload = JObj fields ∧ assoc k fields = Some (JStr s).

(** A payload that is an object with a field [k], whatever it holds. *)
Definition has_field (k : string) (payload : jsval) : Prop :=
  ∃ fields, payload = JObj fields ∧ is_Some (assoc k fields).

(** A [session.event] notification for the session named [sid]: an object
    containing a string [sessionId] and an [event] field. *)
Definition wellformed_notification (n : jsval) (sid : string) : Prop :=
  string_field "sessionId" n sid ∧ has_field "event" n.

(** A [tool.call] payload with its three string fields. *)
Definition wellformed_tool_call (params : jsval) (sid cid name : string) : Prop :=
  string_field "sessionId" params sid
  ∧ string_field "toolCallId" params cid
  ∧ string_field "toolName" params name.

(** A server that answers [session.create], when it does, with an object
    that carries the id of the session as a string. *)
Definition names_sessions (env : Env) : Prop :=
  ∀ t params v,
    reply env (t ++ [ERequest "session.create" params]) = Ack v →
    ∃ sid, string_field "sessionId" v sid.

(** The failure results of the dispatcher. *)
Definition failure_result (text err : string) : ToolResult :=
  TRObject {| textResultForLlm := text;
              binaryResultsForLlm := None;
              resultType := failure;
              error := Some err;
              sessionLog := None;
              toolTelemetry := Some [] |}.



(** The request [destroy()] sends for the session named [sid]. *)
Definition destroy_request (sid : string) : Effect :=
  ERequest "session.destroy" (JObj [("sessionId", JStr sid)]).

(** The one error a session contributes once its third attempt has failed:
    it names the session and the last failure. *)
Definition aggregated (sid : string) (last : thrown) : JsError :=
  Error ("Failed to destroy session " +:+ sid +:+ " after 3 attempts: " +:+
         thrown_message last).

(** The world in which the session object [l] has lost its handlers. *)
Definition cleared {U : Type} (l : nat) (w : @World U) : @World U :=
  set_heap (fun l' => if decide (l' = l)
                      then {| sessionId := sessionId (heap w l);
                              eventHandlers := [];
                              toolHandlers := ∅ |}
                      else heap w l') w.

(** The session object a subscription is made on. *)
Definition target {H : Type} (a : Subscription H) : nat :=
  match a with
  | Subscribe l _ | Unsubscribe l _ => l
  end.

(** A handler that, handed [event], subscribes and unsubscribes nothing on
    the session object [l]. *)
Definition steady {U : Type} (l : nat) (event : jsval) (h : @SessionEventHandler U)
    : Prop :=
  ∀ u, Forall (fun a => target a ≠ l) (h_subs h event u).

(** A handler that, handed [event], does nothing to the handlers of the
    session object [l] except, possibly, unsubscribe itself. *)
Definition retiring {U : Type} (l : nat) (event : jsval) (h : @SessionEventHandler U)
    : Prop :=
  ∀ u, Forall (fun a => target a ≠ l ∨ ∃ g, a = Unsubscribe l g ∧ h_id g = h_id h)
              (h_subs h event u).


Section ShutdownSpec.

Context {U : Type} (env : Env).

(** Up to three attempts on one session, [100]ms then [200]ms apart, read
    off what the outside answers after the log [t]: the effects performed
    and the errors contributed. *)
Inductive retry_spec (sid : string) (t : list Effect)
    : list Effect → list JsError → Prop :=
| first_attempt_ok :
    acked (reply env (t ++ [destroy_request sid])) = true →
    retry_spec sid t [destroy_request sid] []
| second_attempt_ok e1 :
    reply env (t ++ [destroy_request sid]) = Nack e1 →
    acked (reply env (t ++ [destroy_request sid; EDelay 100;
                            destroy_request sid])) = true →
    retry_spec sid t [destroy_request sid; EDelay 100; destroy_request sid] []
| third_attempt_ok e1 e2 :
    reply env (t ++ [destroy_request sid]) = Nack e1 →
    reply env (t ++ [destroy_request sid; EDelay 100;
                     destroy_request sid]) = Nack e2 →
    acked (reply env (t ++ [destroy_request sid; EDelay 100;
                            destroy_request sid; EDelay 200;
                            destroy_request sid])) = true →
    retry_spec sid t [destroy_request sid; EDelay 100; destroy_request sid;
                      EDelay 200; destroy_request sid] []
| all_attempts_failed e1 e2 e3 :
    reply env (t ++ [destroy_request sid]) = Nack e1 →
    reply env (t ++ [destroy_request sid; EDelay 100;
                     destroy_request sid]) = Nack e2 →
    reply env (t ++ [destroy_request sid; EDelay 100;
                     destroy_request sid; EDelay 200;
                     destroy_request sid]) = Nack e3 →
    retry_spec sid t [destroy_request sid; EDelay 100; destroy_request sid;
                      EDelay 200; destroy_request sid] [aggregated sid e3].

(** Every live session in turn, whatever became of the ones before it. *)
Inductive sessions_spec (h : nat → @CopilotSession U)
    : list (string * nat) → list Effect → list Effect → list JsError → Prop :=
| no_session_left t :
    sessions_spec h [] t [] []
| next_session k l rest t seg errs seg' errs' :
    retry_spec (sessionId (h l)) t seg errs →
    sessions_spec h rest (t ++ seg) seg' errs' →
    sessions_spec h ((k, l) :: rest) t (seg ++ seg') (errs ++ errs').

(** One guarded closing step on a resource the client holds. *)
Definition guard_spec (held : bool) (eff : Effect) (what : string)
    (t : list Effect) : list Effect * list JsError :=
  if held
  then ([eff], match reply env (t ++ [eff]) with
               | Ack _ => []
               | Nack e => [Error (what +:+ ": " +:+ thrown_message e)]
               end)
  else ([], []).

(** Dispose the channel, close the transport, terminate the process: each
    step on its own, none skipped because an earlier one failed. *)
Definition closing_spec (c : CopilotClient) (t : list Effect)
    : list Effect * list JsError :=
  let d := guard_spec (connection c) EDispose "Failed to dispose connection" t in
  let s := guard_spec (socket c) ESocketEnd "Failed to close socket" (t ++ d.1) in
  let k := guard_spec (bool_decide (is_Some (cliProcess c))) (EKill None)
             "Failed to kill CLI process" (t ++ d.1 ++ s.1) in
  (d.1 ++ s.1 ++ k.1, d.2 ++ s.2 ++ k.2).

End ShutdownSpec.

(** ** ask.ts *)

Section Ask.

(** The state of the caller of [ask], on which its [onEvent] callback
    runs. *)
Context {V : Type} (env : Env).

Record AskOptions := {
  a_model : option string;
  a_cliPath : option string;
  a_cliArgs : option (list string);
  a_logLevel : option string;
  a_attachments : jsval;
  a_onEvent : option (jsval → V → Res () * V);
  a_timeout : option Z
}.

Record AskResult := {
  content : string;
  events : list jsval;
  completed : bool;
  ask_error : option JsError
}.

(** The local variables of [ask] that the body of its loop updates, what
    the body threw if it did, and the caller's state. *)
Record AskState := {
  seen : list jsval;
  finalContent : string;
  body_threw : option thrown;
  caller : V
}.

(** The content an [assistant.message] event carries: its [data.content]
    when that is a string, the empty string otherwise. *)
Definition message_content (event : jsval) : string :=
  let data := get_prop "data" event in
  if String.eqb (typeof data) "object" && truthy data && js_in "content" data
     && String.eqb (typeof (get_prop "content" data)) "string"
  then as_string (get_prop "content" data)
  else "".

(** The body of [for await (const event of query(...))].  A throw in the
    body leaves the loop, which closes the generator with [return()]; from
    then on nothing the generator yields is consumed. *)
Definition ask_body (onEvent : option (jsval → V → Res () * V))
    : @Consumer AskState :=
  fun event st =>
    match body_threw st with
    | Some _ => (CReturn, st)
    | None =>
        let seen' := seen st ++ [event] in
        let '(r, v) := match onEvent with
                       | Some f => f event (caller st)
                       | None => (Ok (), caller st)
                       end in
        match r with
        | Throw e =>
            (CReturn, {| seen := seen'; finalContent := finalContent st;
                         body_threw := Some e; caller := v |})
        | Ok _ =>
            match event with
            | JUndefined | JNull =>
                (CReturn,
                 {| seen := seen'; finalContent := finalContent st;
                    body_threw := Some (TErr (mkError "TypeError"
                      ("Cannot read properties of " +:+ js_String event +:+
                       " (reading 'type')")));
                    caller := v |})
            | _ =>
                (CNext,
                 {| seen := seen';
                    finalContent :=
                      if is_str (get_prop "type" event) "assistant.message"
                      then message_content event
                      else finalContent st;
                    body_threw := None; caller := v |})
            end
        end
    end.

(** [ask(prompt, options)]: the world's caller state is the caller's own;
    the locals start empty.  The loop is left by [return()] only after the
    body threw, and then that throw is what [catch] receives, whatever the
    closing of the generator does. *)
Definition ask (prompt : string) (options : AskOptions) (v : V)
    (w : @World AskState) : AskResult * @World AskState :=
  let st := {| seen := []; finalContent := ""; body_threw := None; caller := v |} in
  let '((c, _), w) :=
    query env
      {| q_prompt := prompt; q_model := a_model options;
         q_cliPath := a_cliPath options; q_cliArgs := a_cliArgs options;
         q_cwd := None;
         q_logLevel := Some (default "error" (a_logLevel options));
         q_attachments := a_attachments options;
         q_timeout := Some (default 60000%Z (a_timeout options));
         q_includeEphemeral := None; q_tools := None |}
      (ask_body (a_onEvent options)) (set_user st w) in
  let failure :=
    match body_threw (user w) with
    | Some e => Some e
    | None => match c with
              | Throwing e => Some e
              | Normal | Returning => None
              end
    end in
  ({| content := finalContent (user w);
      events := seen (user w);
      completed := match failure with Some _ => false | None => true end;
      ask_error := to_Error <$> failure |}, w).

End Ask.

(** ** Vocabulary for what the operations leave alone *)

(** The events handed to the consumer of [query], as the log records them. *)
Definition yields (t : list Effect) : list jsval :=
  flat_map (fun eff => match eff with
                       | EYield event => [event]
                       | _ => []
                       end) t.

(** An effect that runs the caller's code. *)
Definition is_callback (eff : Effect) : bool :=
  match eff with
  | EInvoke _ _ | EToolInvoke _ | EYield _ => true
  | _ => false
  end.

(** An operation that runs none of the caller's code: whatever it returns
    or throws, the caller's state is as before and the log has grown by
    effects that are no callbacks. *)
Definition quiet {U A : Type} (m : @M U A) : Prop :=
  ∀ w, user (m w).2 = user w
       ∧ ∃ seg, trace (m w).2 = trace w ++ seg
                ∧ Forall (fun eff => is_callback eff = false) seg.

(** The handler of the last tool of the list that bears the name. *)
Definition last_named {U : Type} (name : string) (tools : list (@Tool U))
    : option (@ToolHandler U) :=
  tool_handler <$> last (List.filter (fun tool => String.eqb (tool_name tool) name) tools).

(** The single events an iterator script delivers. *)
Definition script_events (script : list IterItem) : list jsval :=
  flat_map (fun item => match item with
                        | ItEvents [event] => [event]
                        | _ => []
                        end) script.


(** An operation after which the registry, the session objects and the
    options of the client are what they were. *)
Definition same_sessions {U : Type} (w w' : @World U) : Prop :=
  heap w' = heap w
  ∧ next_loc w' = next_loc w
  ∧ sessions (client w') = sessions (client w)
  ∧ options (client w') = options (client w).

Definition keeps {U A : Type} (I : @World U → @World U → Prop) (m : @M U A) : Prop :=
  ∀ w, I w (m w).2.

(** The command line [startCLIServer] spawns, and what it logs before it
    waits for the process. *)
Definition server_args (o : CopilotClientOptions) : list string :=
  cliArgs o ++ ["--server"; "--log-level"; logLevel o] ++
  (if useStdio o then ["--stdio"]
   else if (port o >? 0)%Z then ["--port"; pretty (port o)] else []).

Definition spawn_log (o : CopilotClientOptions) : list Effect :=
  [ESpawn (cliPath o) (server_args o); ESetTimeout 10000].

(** What the spawned process is seen to do while [start()] waits on a client
    with options [o], after the log [t]. *)
Definition readiness (env : Env) (o : CopilotClientOptions) (t : list Effect) : Readiness :=
  await_ready o connecting (proc_events env (t ++ spawn_log o)).

(** ** Vocabulary for the stream of [query] *)

(** Between two worlds the consumer has been handed exactly [evs], in that
    order, and nothing else has touched its state. *)
Definition consumed {U : Type} (consumer : @Consumer U) (evs : list jsval)
    (w w' : @World U) : Prop :=
  user w' = fold_left (fun u event => (consumer event u).2) evs (user w)
  ∧ ∃ seg, trace w' = trace w ++ seg ∧ yields seg = evs.

(** An event the loop of [query] may hand on: not [null] or [undefined], no
    [session.error], and not ephemeral when ephemeral events are withheld. *)
Definition deliverable (includeEphemeral : bool) (event : jsval) : Prop :=
  event ≠ JNull ∧ event ≠ JUndefined
  ∧ is_str (get_prop "type" event) "session.error" = false
  ∧ (includeEphemeral = false → truthy (get_prop "ephemeral" event) = false).

(** * Sample sessions, clients and environments *)

Module Sample.

Definition opts : CopilotClientOptions :=
  {| cliPath := "copilot"; cliArgs := []; cwd := "/work"; port := 0;
     useStdio := true; logLevel := "info"; autoStart := true;
     autoRestart := true |}.

(** A handler that counts its calls in the caller's state. *)
Definition counting (id : nat) : @SessionEventHandler nat :=
  {| h_id := id; h_call := fun _ u => (Ok (), S u); h_subs := fun _ _ => [] |}.

(** A handler that counts its call and then throws. *)
Definition failing (id : nat) : @SessionEventHandler nat :=
  {| h_id := id;
     h_call := fun _ u => (Throw (TErr (Error "handler failed")), S u);
     h_subs := fun _ _ => [] |}.

Definition echo : @ToolHandler nat :=
  fun inv u => (Ok (Some (TRString (inv_toolName inv))), u).

Definition broken : @ToolHandler nat :=
  fun _ u => (Throw (TErr (Error "disk full")), u).

Definition silent : @ToolHandler nat :=
  fun _ u => (Ok None, u).

Definition session_of (sid : string) : @CopilotSession nat :=
  {| sessionId := sid;
     eventHandlers := [counting 1; failing 2; counting 3];
     toolHandlers := {[ "echo" := echo ]} |}.

Definition running : CopilotClient :=
  {| cliProcess := Some ("copilot", ["--server"]); connection := true;
     socket := false; actualPort := None; state := connected;
     sessions := [("s1", 0); ("s2", 1)]; options := opts |}.

(** A connected client with two sessions, [s1] and [s2]. *)
Definition world : @World nat :=
  {| heap := fun l => match l with
                      | 0 => session_of "s1"
                      | _ => session_of "s2"
                      end;
     next_loc := 2; client := running; user := 0; trace := [] |}.

(** A handler that counts its call and unsubscribes [counting 3] from the
    session object [0]. *)
Definition hasty (id : nat) : @SessionEventHandler nat :=
  {| h_id := id; h_call := fun _ u => (Ok (), S u);
     h_subs := fun _ _ => [Unsubscribe 0 (counting 3)] |}.

(** The world [world] in which the first handler of [s1] is a hasty one. *)
Definition world_hasty : @World nat :=
  {| heap := fun l => match l with
                      | 0 => {| sessionId := "s1";
                                eventHandlers := [hasty 1; failing 2; counting 3];
                                toolHandlers := {[ "echo" := echo ]} |}
                      | _ => session_of "s2"
                      end;
     next_loc := 2; client := running; user := 0; trace := [] |}.

Definition env_of (r : list Effect → Reply) (script : list IterItem) : Env :=
  {| process_cwd := "/work"; reply := r; clock_ms := fun _ => 1700000000000%Z;
     clock_iso := fun _ => "2023-11-14T22:13:20.000Z";
     proc_events := fun _ => []; abort_in_setup := false;
     iter_script := script |}.

(** The outside acknowledges everything. *)
Definition agreeable : Env := env_of (fun _ => Ack (JObj [("sessionId", JStr "s1")])) [].

Definition destroys_of (sid : string) (t : list Effect) : nat :=
  length (List.filter (fun eff => match eff with
                                  | ERequest m (JObj [(_, JStr s)]) =>
                                      String.eqb m "session.destroy" && String.eqb s sid
                                  | _ => false
                                  end) t).

(** The server forgets a session once destroyed: a second request for it is
    rejected. *)
Definition forgetful : Env :=
  env_of (fun t => if (2 <=? destroys_of "s1" t)%nat
                   then Nack (TErr (Error "Session not found: s1"))
                   else Ack JNull) [].

(** The server never manages to destroy [s1]; everything else succeeds. *)
Definition stubborn : Env :=
  env_of (fun t => match last t with
                   | Some (ERequest "session.destroy" (JObj [(_, JStr "s1")])) =>
                       Nack (TErr (Error ("busy " +:+ pretty (destroys_of "s1" t))))
                   | _ => Ack JNull
                   end) [].

Definition call (sid cid name : string) : jsval :=
  JObj [("sessionId", JStr sid); ("toolCallId", JStr cid);
        ("toolName", JStr name); ("arguments", JObj [])].

(** A [tool.call] for a registered session that carries no [toolCallId]. *)
Definition call_untagged : jsval :=
  JObj [("sessionId", JStr "s1"); ("toolName", JStr "nope")].

Definition message_event : jsval :=
  JObj [("id", JStr "e1"); ("type", JStr "assistant.message");
        ("data", JObj [("content", JStr "4")]);
        ("timestamp", JStr "2023-11-14T22:13:20.000Z")].

Definition note (sid : string) : jsval :=
  JObj [("sessionId", JStr sid); ("event", message_event)].

(** A client in TCP mode that has not been started. *)
Definition tcp_opts : CopilotClientOptions :=
  {| cliPath := "copilot"; cliArgs := []; cwd := "/work"; port := 0;
     useStdio := false; logLevel := "info"; autoStart := true;
     autoRestart := true |}.

Definition idle (o : CopilotClientOptions) : @World nat :=
  {| heap := fun _ => {| sessionId := ""; eventHandlers := []; toolHandlers := ∅ |};
     next_loc := 0;
     client := {| cliProcess := None; connection := false; socket := false;
                  actualPort := None; state := disconnected; sessions := [];
                  options := o |};
     user := 0; trace := [] |}.

Definition newline : string := String (ascii_of_nat 10) EmptyString.

(** The process prints one line, [listening on port 54321]. *)
Definition announce_whole : list ProcEvent :=
  [PData ("listening on port 54321" +:+ newline)].

(** The same line, arriving in two chunks. *)
Definition announce_split : list ProcEvent :=
  [PData "listening on port 54"; PData ("321" +:+ newline)].

Definition env_proc (events : list ProcEvent) : Env :=
  {| process_cwd := "/work"; reply := fun _ => Ack JNull;
     clock_ms := fun _ => 1700000000000%Z;
     clock_iso := fun _ => "2023-11-14T22:13:20.000Z";
     proc_events := fun _ => events; abort_in_setup := false;
     iter_script := [] |}.

Definition idle_event : jsval :=
  JObj [("id", JStr "e2"); ("type", JStr "session.idle"); ("data", JObj []);
        ("timestamp", JStr "2023-11-14T22:13:21.000Z")].



Definition ask : @QueryOptions nat :=
  {| q_prompt := "What is 2+2?"; q_model := None; q_cliPath := None;
     q_cliArgs := None; q_cwd := None; q_logLevel := None;
     q_attachments := JUndefined; q_timeout := None;
     q_includeEphemeral := None; q_tools := None |}.

(** A consumer that counts what it is handed and asks for more. *)
Definition reader : @Consumer nat := fun _ u => (CNext, S u).

(** The server answers the turn and goes idle, and then rejects the
    request to destroy the session. *)
Definition env_destroy_rejected : Env :=
  env_of (fun t => match last t with
                   | Some (ERequest "session.destroy" _) =>
                       Nack (TErr (Error "Session s1 is busy"))
                   | _ => Ack (JObj [("sessionId", JStr "s1")])
                   end)
         [ItEvents [message_event]; ItEvents [idle_event]].

(** The server acknowledges everything and never sends an event. *)
Definition env_silent : Env :=
  env_of (fun _ => Ack (JObj [("sessionId", JStr "s1")])) [].




(** A handler that counts its call and unsubscribes the handler of its own
    identity from the session object [0]. *)
Definition once (id : nat) : @SessionEventHandler nat :=
  {| h_id := id; h_call := fun _ u => (Ok (), S u);
     h_subs := fun _ _ => [Unsubscribe 0 (counting id)] |}.

(** The world [world] in which the first handler of [s1] is a one-shot. *)
Definition world_once : @World nat :=
  {| heap := fun l => match l with
                      | 0 => {| sessionId := "s1";
                                eventHandlers := [once 1; failing 2; counting 3];
                                toolHandlers := {[ "echo" := echo ]} |}
                      | _ => session_of "s2"
                      end;
     next_loc := 2; client := running; user := 0; trace := [] |}.

(** Options of a client that is started by hand. *)
Definition manual_opts : CopilotClientOptions :=
  {| cliPath := "copilot"; cliArgs := []; cwd := "/work"; port := 0;
     useStdio := true; logLevel := "info"; autoStart := false;
     autoRestart := true |}.

Definition echo_tool : @Tool nat :=
  {| tool_name := "echo"; tool_description := "repeats its name";
     tool_parameters := None; tool_handler := echo |}.

Definition with_echo : @SessionConfig nat :=
  {| cfg_sessionId := None; cfg_model := None; cfg_tools := Some [echo_tool] |}.

(** The process announces its port and then refuses the connection. *)
Definition env_refusing : Env :=
  {| process_cwd := "/work";
     reply := fun t => match last t with
                       | Some (EConnect _ _) => Nack (TErr (Error "connect ECONNREFUSED"))
                       | _ => Ack JNull
                       end;
     clock_ms := fun _ => 1700000000000%Z;
     clock_iso := fun _ => "2023-11-14T22:13:20.000Z";
     proc_events := fun _ => announce_whole; abort_in_setup := false;
     iter_script := [] |}.

End Sample.

(** * Properties *)

Section Properties.

Context {U : Type}.

Implicit Types (w : @World U) (env : Env).

(** ** Session: event dispatch *)

(** Subscriptions made on other sessions leave the session object [l], the
    handlers still to visit, the log, the caller's state and the client as
    they are. *)
Lemma perform_elsewhere (l : nat) (subs : list (Subscription (@SessionEventHandler U)))
    (pending : list (@SessionEventHandler U)) w :
  Forall (fun a => target a ≠ l) subs →
  ∃ w', fold_left (perform l) subs (w, pending) = (w', pending)
    ∧ trace w' = trace w
    ∧ user w' = user w
    ∧ heap w' l = heap w l
    ∧ next_loc w' = next_loc w
    ∧ client w' = client w.
Proof.
  intros Hsubs. revert w. induction Hsubs as [|a subs Ha _ IH]; intros w.
  { by exists w. }
  cbn [fold_left]. unfold perform at 2.
  destruct a as [l' h|l' h]; simpl in Ha;
    (destruct (Nat.eqb_spec l' l) as [->|_]; [done|]); cbn [andb];
    match goal with |- context [fold_left _ _ (?w1, _)] =>
      destruct (IH w1) as (w' & Hrun & Htr & Hu & Hh & Hn & Hc)
    end;
    exists w'; rewrite Hrun, Htr, Hu, Hh, Hn, Hc;
    unfold on, unsubscribe, bind, get_session, put_session, modify; simpl;
    (destruct (decide (l = l')) as [->|_]; [done|]); done.
Qed.

Lemma dispatch_loop_runs_all (fuel l : nat) (hs : list (@SessionEventHandler U))
    (event : jsval) w :
  Forall (steady l event) hs →
  length hs ≤ fuel →
  ∃ w', dispatch_loop fuel l hs event w = Some (Ok (), w')
    ∧ trace w' = trace w ++ List.map (fun h => EInvoke (h_id h) event) hs
    ∧ user w' = fold_left (fun u h => snd (h_call h event u)) hs (user w)
    ∧ heap w' l = heap w l
    ∧ next_loc w' = next_loc w
    ∧ client w' = client w.
Proof.
  intros Hsteady. revert fuel w.
  induction Hsteady as [|h hs Hh _ IH]; intros fuel w Hfuel.
  - exists w. rewrite app_nil_r. by destruct fuel.
  - destruct fuel as [|fuel]; [simpl in Hfuel; lia|].
    cbn [dispatch_loop].
    unfold bind, try_catch, call_handler, bind, log, modify, ret. simpl.
    destruct (h_call h event (user w)) as [r u] eqn:Hcall.
    set (w1 := set_user u (set_trace (trace w ++ [EInvoke (h_id h) event]) w)).
    assert (Hw1 : (let (r0, w0) := (if r is Throw _ then (Ok (), w1) else (r, w1))
                   in let (w2, rest) := fold_left (perform l) (h_subs h event (user w))
                                          (w0, hs) in
                      dispatch_loop fuel l rest event w2)
                  = (let (w2, rest) := fold_left (perform l) (h_subs h event (user w))
                                         (w1, hs) in
                     dispatch_loop fuel l rest event w2)).
    { by destruct r as [[]|e]. }
    destruct (perform_elsewhere l (h_subs h event (user w)) hs w1 (Hh (user w)))
      as (w2 & Hsubs & Htr2 & Hu2 & Hh2 & Hn2 & Hc2).
    destruct (IH fuel w2) as (w' & Hrun & Htr & Hu & Hheap & Hn & Hc);
      [simpl in Hfuel; lia|].
    exists w'.
    assert (Hgoal : (let (w3, rest) := fold_left (perform l) (h_subs h event (user w))
                                         (w1, hs) in
                     dispatch_loop fuel l rest event w3) = Some (Ok (), w')).
    { by rewrite Hsubs. }
    split.
    { destruct r as [[]|e]; simpl; exact Hgoal. }
    rewrite Htr, Hu, Hheap, Hn, Hc, Htr2, Hu2, Hh2, Hn2, Hc2. subst w1. simpl.
    rewrite <- app_assoc. done.
Qed.

(** C6, as amended. Dispatching one event on a session none of whose
    handlers subscribes or unsubscribes a handler of that session during the
    dispatch calls every registered handler with that event, in registration
    order, whether or not some of them throw: the log gains exactly one call
    per handler, every handler's effect on the caller's state is kept, the
    dispatch itself returns normally, and the session and the client are
    left as they were. *)
Theorem dispatch_reaches_every_handler (fuel l : nat) (event : jsval) w :
  Forall (steady l event) (eventHandlers (heap w l)) →
  length (eventHandlers (heap w l)) ≤ fuel →
  ∃ w', _dispatchEvent fuel l event w = Some (Ok (), w')
    ∧ trace w' = trace w ++ List.map (fun h => EInvoke (h_id h) event)
                                     (eventHandlers (heap w l))
    ∧ length (List.map (fun h => EInvoke (h_id h) event) (eventHandlers (heap w l)))
      = length (eventHandlers (heap w l))
    ∧ user w' = fold_left (fun u h => snd (h_call h event u))
                          (eventHandlers (heap w l)) (user w)
    ∧ heap w' l = heap w l
    ∧ client w' = client w.
Proof.
  intros Hsteady Hfuel. unfold _dispatchEvent.
  destruct (dispatch_loop_runs_all fuel l (eventHandlers (heap w l)) event w
              Hsteady Hfuel)
    as (w' & Hrun & Htr & Hu & Hh & _ & Hc).
  exists w'. rewrite length_map. done.
Qed.

(** ** Session: destroy *)

Lemma destroy_acked env (l : nat) w :
  acked (reply env (trace w ++ [destroy_request (sessionId (heap w l))])) = true →
  destroy env l w =
    (Ok (), cleared l (set_trace (trace w ++ [destroy_request (sessionId (heap w l))]) w)).
Proof.
  intros Hack. unfold destroy, bind, get_session, sendRequest, external.
  fold (destroy_request (sessionId (heap w l))).
  destruct (reply env _); [done | discriminate].
Qed.

Lemma destroy_nacked env (l : nat) w e :
  reply env (trace w ++ [destroy_request (sessionId (heap w l))]) = Nack e →
  destroy env l w =
    (Throw e, set_trace (trace w ++ [destroy_request (sessionId (heap w l))]) w).
Proof.
  intros Hnack. unfold destroy, bind, get_session, sendRequest, external.
  fold (destroy_request (sessionId (heap w l))).
  by rewrite Hnack.
Qed.

Lemma cleared_sessionId (l l' : nat) w :
  sessionId (heap (cleared l w) l') = sessionId (heap w l').
Proof. unfold cleared; simpl. by destruct (decide (l' = l)) as [->|]. Qed.

Lemma cleared_empty (l : nat) w :
  eventHandlers (heap (cleared l w) l) = [] ∧ toolHandlers (heap (cleared l w) l) = ∅.
Proof. unfold cleared; simpl. by destruct (decide (l = l)). Qed.

(** C7, as amended. When the [session.destroy] request is acknowledged each
    time, calling [destroy()] twice on the same session raises neither time,
    and after each of the two calls the session's event-handler set and
    tool-handler map are both empty. *)
Theorem destroy_twice_when_acknowledged env (l : nat) w :
  acked (reply env (trace w ++ [destroy_request (sessionId (heap w l))])) = true →
  acked (reply env (trace w ++ [destroy_request (sessionId (heap w l));
                                destroy_request (sessionId (heap w l))])) = true →
  ∃ w1 w2,
    destroy env l w = (Ok (), w1)
    ∧ destroy env l w1 = (Ok (), w2)
    ∧ eventHandlers (heap w1 l) = [] ∧ toolHandlers (heap w1 l) = ∅
    ∧ eventHandlers (heap w2 l) = [] ∧ toolHandlers (heap w2 l) = ∅.
Proof.
  intros H1 H2.
  set (sid := sessionId (heap w l)) in *.
  set (w1 := cleared l (set_trace (trace w ++ [destroy_request sid]) w)).
  assert (Hsid : sessionId (heap w1 l) = sid) by apply cleared_sessionId.
  assert (Htr : trace w1 = trace w ++ [destroy_request sid]) by done.
  exists w1, (cleared l (set_trace (trace w1 ++ [destroy_request sid]) w1)).
  split; [by apply destroy_acked |].
  split.
  { rewrite <- Hsid. apply destroy_acked.
    rewrite Hsid, Htr, <- app_assoc. exact H2. }
  pose proof (cleared_empty l (set_trace (trace w ++ [destroy_request sid]) w)) as [? ?].
  pose proof (cleared_empty l (set_trace (trace w1 ++ [destroy_request sid]) w1)) as [? ?].
  done.
Qed.

(** ** Client: stop *)

Lemma err_message_to_Error (e : thrown) : err_message (to_Error e) = thrown_message e.
Proof. by destruct e. Qed.

(** The three attempts, laid out. *)
Lemma destroy_attempts_unfold env (l : nat) :
  destroy_attempts (U:=U) env 3 None l =
  try_catch (bind (destroy env l) (fun _ => ret None))
    (fun e1 => bind (log (EDelay 100)) (fun _ =>
       try_catch (bind (destroy env l) (fun _ => ret None))
         (fun e2 => bind (log (EDelay 200)) (fun _ =>
            try_catch (bind (destroy env l) (fun _ => ret None))
              (fun e3 => ret (Some (to_Error e3))))))).
Proof. reflexivity. Qed.

Lemma destroy_attempts_meets_spec env (l : nat) w :
  ∃ seg errs last w',
    destroy_attempts env 3 None l w = (Ok last, w')
    ∧ retry_spec env (sessionId (heap w l)) (trace w) seg errs
    ∧ errs = match last with
             | Some e => [Error ("Failed to destroy session " +:+ sessionId (heap w l) +:+
                                 " after 3 attempts: " +:+ err_message e)]
             | None => []
             end
    ∧ trace w' = trace w ++ seg
    ∧ client w' = client w
    ∧ (∀ l', sessionId (heap w' l') = sessionId (heap w l')).
Proof.
  rewrite destroy_attempts_unfold.
  set (sid := sessionId (heap w l)).
  set (D := destroy_request sid).
  unfold try_catch at 1. unfold bind at 1.
  destruct (reply env (trace w ++ [D])) as [v1|e1] eqn:R1.
  { rewrite destroy_acked by (fold sid; fold D; by rewrite R1).
    eexists [D], [], None, _. split; [reflexivity|].
    split; [apply first_attempt_ok; fold D; by rewrite R1|].
    repeat split; try done. intros l'. by rewrite cleared_sessionId. }
  rewrite (destroy_nacked _ _ _ e1) by done. fold sid; fold D.
  unfold bind at 1, log at 1, modify at 1. simpl.
  match goal with |- context [try_catch _ _ ?x] => set (w1 := x) end.
  assert (Hw1 : sessionId (heap w1 l) = sid) by done.
  assert (Ht1 : trace w1 ++ [D] = trace w ++ [D; EDelay 100; D]).
  { subst w1; simpl. by rewrite <- !app_assoc. }
  unfold try_catch at 1. unfold bind at 1.
  destruct (reply env (trace w ++ [D; EDelay 100; D])) as [v2|e2] eqn:R2.
  { rewrite destroy_acked by (rewrite Hw1; fold D; by rewrite Ht1, R2).
    eexists [D; EDelay 100; D], [], None, _. split; [reflexivity|].
    split; [eapply second_attempt_ok; fold D; [exact R1 | by rewrite R2]|].
    repeat split; try done.
    all: try (intros l'; by rewrite cleared_sessionId).
    all: simpl; rewrite ?Hw1; fold D; by rewrite ?Ht1. }
  rewrite (destroy_nacked _ _ _ e2) by (rewrite Hw1; fold D; by rewrite Ht1).
  rewrite Hw1. fold D.
  unfold bind at 1, log at 1, modify at 1. simpl.
  match goal with |- context [try_catch _ _ ?x] => set (w2 := x) end.
  assert (Hw2 : sessionId (heap w2 l) = sid) by done.
  assert (Ht2 : trace w2 ++ [D] = trace w ++ [D; EDelay 100; D; EDelay 200; D]).
  { subst w2 w1; simpl. by rewrite <- !app_assoc. }
  unfold try_catch at 1. unfold bind at 1.
  destruct (reply env (trace w ++ [D; EDelay 100; D; EDelay 200; D])) as [v3|e3] eqn:R3.
  { rewrite destroy_acked by (rewrite Hw2; fold D; by rewrite Ht2, R3).
    eexists [D; EDelay 100; D; EDelay 200; D], [], None, _. split; [reflexivity|].
    split; [eapply third_attempt_ok; fold D; [exact R1 | exact R2 | by rewrite R3]|].
    repeat split; try done.
    all: try (intros l'; by rewrite cleared_sessionId).
    all: simpl; rewrite ?Hw2; fold D; by rewrite ?Ht2. }
  rewrite (destroy_nacked _ _ _ e3) by (rewrite Hw2; fold D; by rewrite Ht2).
  rewrite Hw2. fold D.
  eexists [D; EDelay 100; D; EDelay 200; D], [aggregated sid e3], (Some (to_Error e3)), _.
  split; [reflexivity|].
  split; [eapply all_attempts_failed; fold D; eauto|].
  repeat split; try done.
  all: try (unfold aggregated; by rewrite err_message_to_Error).
  all: simpl; by rewrite ?Ht2.
Qed.

Lemma sessions_spec_ext env (h h' : nat → @CopilotSession U) ss t seg errs :
  (∀ l, sessionId (h' l) = sessionId (h l)) →
  sessions_spec env h ss t seg errs → sessions_spec env h' ss t seg errs.
Proof.
  intros Hext Hspec. induction Hspec as [|k l rest t seg errs seg' errs' Hr _ IH].
  - constructor.
  - econstructor; [by rewrite Hext | exact IH].
Qed.

Lemma destroy_sessions_meets_spec env (ss : list (string * nat)) w (errors : list JsError) :
  ∃ seg errs w',
    destroy_sessions env ss errors w = (Ok (errors ++ errs), w')
    ∧ sessions_spec env (heap w) ss (trace w) seg errs
    ∧ trace w' = trace w ++ seg
    ∧ client w' = client w
    ∧ (∀ l', sessionId (heap w' l') = sessionId (heap w l')).
Proof.
  revert w errors. induction ss as [|[k l] rest IH]; intros w errors.
  - exists [], [], w. rewrite !app_nil_r. repeat split; [constructor].
  - cbn [destroy_sessions]. unfold bind at 1, get_session at 1. unfold bind at 1.
    destruct (destroy_attempts_meets_spec env l w)
      as (seg & errs & last & w1 & Hrun & Hspec & Herrs & Htr & Hcl & Hsid).
    rewrite Hrun.
    match goal with |- context [destroy_sessions env rest ?e w1] =>
      destruct (IH w1 e) as (seg' & errs' & w' & Hrun' & Hspec' & Htr' & Hcl' & Hsid')
    end.
    exists (seg ++ seg'), (errs ++ errs'), w'.
    split.
    { rewrite Hrun'. f_equal. f_equal. subst errs.
      destruct last; by rewrite <- ?app_assoc. }
    split.
    { econstructor; [exact Hspec|].
      rewrite <- Htr. eapply sessions_spec_ext; [|exact Hspec']. done. }
    split; [by rewrite Htr', Htr, app_assoc|].
    split; [congruence|].
    intros l'. by rewrite Hsid', Hsid.
Qed.

Lemma guarded_meets_spec env (eff : Effect) (what : string) (errors : list JsError) w :
  guarded env eff what errors w =
    (Ok (errors ++ (guard_spec env true eff what (trace w)).2),
     set_trace (trace w ++ [eff]) w).
Proof.
  unfold guarded, try_catch, bind, external, guard_spec, ret; simpl.
  destruct (reply env (trace w ++ [eff])); simpl; by rewrite ?app_nil_r.
Qed.

(** [stop()] against the design document's account of it. *)
Lemma stop_meets_spec env w :
  ∃ seg errs w',
    sessions_spec env (heap w) (sessions (client w)) (trace w) seg errs
    ∧ stop env w = (Ok (errs ++ (closing_spec env (client w) (trace w ++ seg)).2), w')
    ∧ trace w' = trace w ++ seg ++ (closing_spec env (client w) (trace w ++ seg)).1
    ∧ sessions (client w') = []
    ∧ connection (client w') = false
    ∧ socket (client w') = false
    ∧ cliProcess (client w') = None
    ∧ state (client w') = disconnected
    ∧ actualPort (client w') = None.
Proof.
  destruct (destroy_sessions_meets_spec env (sessions (client w)) w [])
    as (seg & errs & w1 & Hrun & Hspec & Htr & Hcl & _).
  exists seg, errs. unfold stop.
  unfold bind at 1, get_client at 1. unfold bind at 1. rewrite Hrun. simpl app.
  unfold closing_spec.
  destruct w1 as [h1 n1 c1 u1 t1]. simpl in Htr, Hcl. subst c1 t1.
  clear Hrun.
  remember (trace w ++ seg) as t eqn:Ht.
  remember (trace w) as t0 eqn:Ht0. remember (heap w) as h0 eqn:Hh0.
  destruct (client w) as [proc conn sock ap st ss o]. simpl.
  unfold bind, update_client, modify, get_client, ret; simpl.
  destruct conn, sock, proc as [p|]; simpl;
    rewrite ?guarded_meets_spec; simpl;
    rewrite ?guarded_meets_spec; simpl;
    rewrite ?guarded_meets_spec; simpl;
    (match goal with |- ∃ w', _ ∧ (_, ?W) = _ ∧ _ => exists W end);
    (split; [exact Hspec|]); simpl;
    rewrite ?app_nil_r, <- ?app_assoc; simpl;
    (split; [reflexivity|]);
    (split; [subst t; by rewrite <- ?app_assoc|]);
    done.
Qed.

(** The account leaves no choice: what is attempted on one session, and
    what it contributes, is fixed by what the outside answers. *)
Lemma retry_spec_functional env (sid : string) (t seg seg' : list Effect)
    (errs errs' : list JsError) :
  retry_spec env sid t seg errs → retry_spec env sid t seg' errs' →
  seg = seg' ∧ errs = errs'.
Proof.
  intros H H'.
  destruct H; destruct H'; split; try reflexivity;
    repeat match goal with
           | Hn : reply env ?x = Nack _, Ha : acked (reply env ?x) = true |- _ =>
               rewrite Hn in Ha; discriminate Ha
           | Hn : reply env ?x = Nack _, Hn' : reply env ?x = Nack _ |- _ =>
               rewrite Hn in Hn'; injection Hn' as ->
           end; reflexivity.
Qed.

Lemma sessions_spec_functional env (h : nat → @CopilotSession U) ss t seg seg' errs errs' :
  sessions_spec env h ss t seg errs → sessions_spec env h ss t seg' errs' →
  seg = seg' ∧ errs = errs'.
Proof.
  intros H. revert seg' errs'.
  induction H as [|k l rest t seg1 errs1 seg2 errs2 Hr _ IH]; intros seg' errs' H'.
  - by inversion H'.
  - inversion H' as [|? ? ? ? seg1' errs1' seg2' errs2' Hr' Hrest']; subst.
    destruct (retry_spec_functional _ _ _ _ _ _ _ Hr Hr') as [-> ->].
    destruct (IH _ _ Hrest') as [-> ->]. done.
Qed.

(** C2. [stop()] never throws.  It goes through every live session in
    registry order and on each makes up to three [destroy()] attempts, 100ms
    and then 200ms apart; a session whose three attempts all fail contributes
    exactly one error, naming the session and the last failure, and the
    sessions after it are still attended to.  The registry is then emptied,
    the channel, the socket and the process are each closed under their own
    guard, and the list returned holds exactly the errors met on the way, in
    order (none on a clean shutdown): it is the list the design document's
    account determines, for the effects that account determines. *)
Theorem stop_retries_collects_and_returns env w :
  ∃ errors w',
    stop env w = (Ok errors, w')
    ∧ sessions (client w') = []
    ∧ connection (client w') = false
    ∧ socket (client w') = false
    ∧ cliProcess (client w') = None
    ∧ state (client w') = disconnected
    ∧ (∃ seg errs, sessions_spec env (heap w) (sessions (client w)) (trace w) seg errs)
    ∧ (∀ seg errs,
         sessions_spec env (heap w) (sessions (client w)) (trace w) seg errs →
         errors = errs ++ (closing_spec env (client w) (trace w ++ seg)).2
         ∧ trace w' = trace w ++ seg ++ (closing_spec env (client w) (trace w ++ seg)).1).
Proof.
  destruct (stop_meets_spec env w)
    as (seg & errs & w' & Hspec & Hrun & Htr & Hss & Hconn & Hsock & Hproc & Hst & _).
  exists (errs ++ (closing_spec env (client w) (trace w ++ seg)).2), w'.
  repeat (split; [done|]). split; [eauto|].
  intros seg' errs' Hspec'.
  by destruct (sessions_spec_functional _ _ _ _ _ _ _ _ Hspec Hspec') as [<- <-].
Qed.

(** ** Client: inbound tool calls *)

Lemma string_field_get (k : string) (payload : jsval) (s : string) :
  string_field k payload s → get_prop k payload = JStr s ∧ truthy payload = true.
Proof. intros (fields & -> & Hk). simpl. by rewrite Hk. Qed.

Lemma typeof_string (v : jsval) :
  String.eqb (typeof v) "string" = true → ∃ s, v = JStr s.
Proof. destruct v; simpl; try discriminate. eauto. Qed.

Lemma get_prop_string_field (k : string) (payload : jsval) (s : string) :
  get_prop k payload = JStr s → string_field k payload s.
Proof.
  destruct payload; simpl; try discriminate.
  destruct (assoc k fields) as [v|] eqn:Hk; simpl; [|discriminate].
  intros ->. by exists fields.
Qed.

(** The guard at the head of [handleToolCallRequest] lets a payload through
    exactly when it has the three string fields. *)
Lemma tool_call_guard (params : jsval) :
  negb (truthy params)
  || negb (String.eqb (typeof (get_prop "sessionId" params)) "string")
  || negb (String.eqb (typeof (get_prop "toolCallId" params)) "string")
  || negb (String.eqb (typeof (get_prop "toolName" params)) "string") = false
  ↔ ∃ sid cid name, wellformed_tool_call params sid cid name.
Proof.
  split.
  - rewrite !orb_false_iff, !negb_false_iff. intros [[[_ Hs] Hc] Hn].
    apply typeof_string in Hs as [sid Hs].
    apply typeof_string in Hc as [cid Hc].
    apply typeof_string in Hn as [name Hn].
    exists sid, cid, name. repeat split; by apply get_prop_string_field.
  - intros (sid & cid & name & Hs & Hc & Hn).
    apply string_field_get in Hs as [-> ->].
    apply string_field_get in Hc as [-> _].
    apply string_field_get in Hn as [-> _]. done.
Qed.

(** C3, as amended. For an inbound [tool.call] request whose payload has
    string [sessionId], [toolCallId] and [toolName], whose [sessionId] names
    a registered session and whose [toolName] has no handler registered in
    that session, the dispatcher returns (it does not throw) a response whose
    result has [resultType] "failure" and says that the tool is not supported
    by this client instance; nothing else happens. *)
Theorem unsupported_tool_is_answered (params : jsval) (sid cid name : string)
    (l : nat) w :
  wellformed_tool_call params sid cid name →
  assoc sid (sessions (client w)) = Some l →
  toolHandlers (heap w l) !! name = None →
  handleToolCallRequest params w =
    (Ok {| result := failure_result
             ("Tool '" +:+ name +:+ "' is not supported by this client instance.")
             ("tool '" +:+ name +:+ "' not supported") |}, w).
Proof.
  intros Hwf Hreg Hnone. unfold handleToolCallRequest.
  assert (Hguard := proj2 (tool_call_guard params) (ex_intro _ sid (ex_intro _ cid (ex_intro _ name Hwf)))).
  rewrite Hguard. destruct Hwf as (Hs & Hc & Hn).
  apply string_field_get in Hs as [Hs _]. apply string_field_get in Hn as [Hn _].
  unfold bind, get_client, getToolHandler, bind, get_session, ret.
  rewrite Hs, Hn. simpl. by rewrite Hreg, Hnone.
Qed.

(** C5. An inbound [tool.call] request whose payload lacks a string
    [sessionId], [toolCallId] or [toolName], or whose [sessionId] names no
    registered session, makes the dispatcher throw an [Error] (invalid
    payload, or unknown session): no response is returned, no handler is
    called and nothing changes. *)
Theorem malformed_tool_call_is_rejected (params : jsval) w :
  (¬ (∃ sid cid name, wellformed_tool_call params sid cid name)
   ∨ ∃ sid, string_field "sessionId" params sid
            ∧ assoc sid (sessions (client w)) = None) →
  ∃ e, handleToolCallRequest params w = (Throw (TErr e), w)
       ∧ (e = Error "Invalid tool call payload"
          ∨ ∃ sid, string_field "sessionId" params sid
                   ∧ e = Error ("Unknown session " +:+ sid)).
Proof.
  intros H. unfold handleToolCallRequest.
  destruct (negb (truthy params) || _ || _ || _) eqn:Hguard.
  { eexists. split; [reflexivity | by left]. }
  apply tool_call_guard in Hguard as (sid & cid & name & Hwf).
  destruct H as [Hnot | (sid' & Hs' & Hreg)].
  { destruct Hnot. eauto. }
  pose proof Hs' as Hfield.
  apply string_field_get in Hs' as [Hs' _].
  unfold bind, get_client. rewrite Hs'. simpl. rewrite Hreg.
  eexists. split; [reflexivity | right; eauto].
Qed.

(** C4. Whatever a tool handler does, [executeToolCall] returns a response
    and never throws: a handler that throws gives a "failure" result whose
    text and [error] field are both the message of what was thrown, with
    empty telemetry; a handler that returns nothing gives the "failure"
    result saying that no result was produced; a handler that returns a bare
    string gives that string unchanged (as does any other result). *)
Theorem tool_call_is_always_answered (handler : @ToolHandler U) (request : jsval) w :
  (∃ response w', executeToolCall handler request w = (Ok response, w'))
  ∧ (∀ e u, handler (invocation_of request) (user w) = (Throw e, u) →
       (executeToolCall handler request w).1 =
         Ok {| result := failure_result (thrown_message e) (thrown_message e) |})
  ∧ (∀ u, handler (invocation_of request) (user w) = (Ok None, u) →
       (executeToolCall handler request w).1 =
         Ok {| result := failure_result "Tool returned no result"
                                        "tool returned no result" |})
  ∧ (∀ r u, handler (invocation_of request) (user w) = (Ok (Some r), u) →
       (executeToolCall handler request w).1 = Ok {| result := r |})
  ∧ (∀ s u, handler (invocation_of request) (user w) = (Ok (Some (TRString s)), u) →
       (executeToolCall handler request w).1 = Ok {| result := TRString s |}).
Proof.
  unfold executeToolCall, try_catch, bind, call_tool, bind, log, modify, ret; simpl.
  destruct (handler (invocation_of request) (user w)) as [[r|e] u]; simpl.
  - split; [eauto|]. repeat split; intros; simplify_eq; done.
  - split; [eauto|]. repeat split; intros; simplify_eq; done.
Qed.

(** ** Client: inbound session events *)

(** The guard at the head of [handleSessionEventNotification] lets a
    notification through exactly when it is well formed. *)
Lemma notification_guard (n : jsval) :
  negb (String.eqb (typeof n) "object")
  || negb (truthy n)
  || negb (js_in "sessionId" n)
  || negb (String.eqb (typeof (get_prop "sessionId" n)) "string")
  || negb (js_in "event" n) = false
  ↔ ∃ sid, wellformed_notification n sid.
Proof.
  split.
  - rewrite !orb_false_iff, !negb_false_iff. intros [[[[_ _] _] Hs] He].
    apply typeof_string in Hs as [sid Hs]. exists sid.
    split; [by apply get_prop_string_field|].
    destruct n; simpl in He; try discriminate.
    exists fields. split; [done|]. by apply bool_decide_eq_true in He.
  - intros (sid & (fields & -> & Hs) & (fields' & Heq & He)).
    simplify_eq. simpl. rewrite Hs. simpl.
    by rewrite (bool_decide_eq_true_2 _ He).
Qed.

(** C10. An inbound [session.event] notification that is not an object with
    a string [sessionId] and an [event] field, or whose [sessionId] names no
    registered session, is dropped: nothing is thrown, no handler is called,
    and the client, the sessions and the log are exactly as before.  A
    well-formed notification for a registered session is handed, with its
    [event] field untouched, to that session's [_dispatchEvent]. *)
Theorem notification_is_dropped_or_forwarded (fuel : nat) (n : jsval) w :
  ((¬ (∃ sid, wellformed_notification n sid)
    ∨ ∃ sid, wellformed_notification n sid
             ∧ assoc sid (sessions (client w)) = None) →
   handleSessionEventNotification fuel n w = Some (Ok (), w))
  ∧ (∀ sid l, wellformed_notification n sid →
              assoc sid (sessions (client w)) = Some l →
     handleSessionEventNotification fuel n w
       = _dispatchEvent fuel l (get_prop "event" n) w).
Proof.
  unfold handleSessionEventNotification. split.
  - intros H.
    destruct (negb (String.eqb (typeof n) "object") || _ || _ || _ || _) eqn:Hguard; [done|].
    apply notification_guard in Hguard as (sid & Hwf).
    destruct H as [Hnot | (sid' & [Hs' _] & Hreg)]; [destruct Hnot; eauto|].
    apply string_field_get in Hs' as [Hs' _].
    rewrite Hs'. simpl. by rewrite Hreg.
  - intros sid l Hwf Hreg.
    rewrite (proj2 (notification_guard n) (ex_intro _ sid Hwf)).
    destruct Hwf as [Hs _]. apply string_field_get in Hs as [Hs _].
    rewrite Hs. simpl. by rewrite Hreg.
Qed.

(** ** Client: readiness of the spawned process *)

Lemma append_empty_r (s : string) : s +:+ "" = s.
Proof.
  induction s as [|a s IH]; [done|].
  change (String a (s +:+ "") = String a s). by rewrite IH.
Qed.

Lemma append_assoc (s1 s2 s3 : string) : (s1 +:+ s2) +:+ s3 = s1 +:+ (s2 +:+ s3).
Proof.
  induction s1 as [|a s1 IH]; [done|].
  change (String a ((s1 +:+ s2) +:+ s3) = String a (s1 +:+ (s2 +:+ s3))). by rewrite IH.
Qed.

(** Once the promise is settled, no listener touches it or the port again. *)
Lemma on_event_after_resolved (o : CopilotClientOptions) (st : ConnectionState)
    (r : Readiness) (ev : ProcEvent) :
  resolved r = true →
  resolved (on_event o st r ev) = true
  ∧ settled (on_event o st r ev) = settled r
  ∧ seenPort (on_event o st r ev) = seenPort r.
Proof.
  intros Hres. destruct ev; simpl; rewrite ?Hres; simpl; try done.
  - destruct (useStdio o); [done|].
    destruct (match_port _); simpl; rewrite ?Hres; done.
  - by destruct (autoRestart o && _).
Qed.

Lemma events_after_resolved (o : CopilotClientOptions) (st : ConnectionState)
    (events : list ProcEvent) (r : Readiness) :
  resolved r = true →
  settled (fold_left (on_event o st) events r) = settled r
  ∧ seenPort (fold_left (on_event o st) events r) = seenPort r.
Proof.
  revert r. induction events as [|ev events IH]; intros r Hres; [done|]. simpl.
  destruct (on_event_after_resolved o st r ev Hres) as (Hres' & Hs & Hp).
  destruct (IH _ Hres') as [-> ->]. done.
Qed.

(** In stdio mode readiness is resolved at the spawn, whatever follows. *)
Lemma stdio_is_ready_at_once (o : CopilotClientOptions) (st : ConnectionState)
    (events : list ProcEvent) :
  useStdio o = true →
  settled (await_ready o st events) = Some (Ok ())
  ∧ seenPort (await_ready o st events) = None.
Proof.
  intros Hstdio. unfold await_ready, spawned. rewrite Hstdio.
  by apply events_after_resolved.
Qed.

(** In TCP mode, output in which no announcement ever completes leaves the
    promise to the timer, which rejects it. *)
Lemma quiet_output_stays_pending (o : CopilotClientOptions) (st : ConnectionState)
    (chunks : list string) (r : Readiness) :
  useStdio o = false →
  resolved r = false →
  (∀ k, match_port (stdout r +:+ foldr String.append "" (take k chunks)) = None) →
  resolved (fold_left (on_event o st) (PData <$> chunks) r) = false
  ∧ settled (fold_left (on_event o st) (PData <$> chunks) r) = settled r
  ∧ seenPort (fold_left (on_event o st) (PData <$> chunks) r) = seenPort r.
Proof.
  intros Htcp. revert r. induction chunks as [|c chunks IH]; intros r Hres Hquiet; [done|].
  simpl. rewrite Htcp.
  pose proof (Hquiet 1) as H1. simpl in H1. rewrite ?take_0 in H1. simpl in H1.
  rewrite append_empty_r in H1. rewrite H1.
  match goal with |- context [fold_left _ _ ?r'] =>
    destruct (IH r') as (Hr & Hs & Hp); [done| |exact (conj Hr (conj Hs Hp))]
  end.
  intros k. simpl. specialize (Hquiet (S k)). simpl in Hquiet.
  by rewrite append_assoc.
Qed.

Lemma no_announcement_times_out (o : CopilotClientOptions) (st : ConnectionState)
    (chunks : list string) :
  useStdio o = false →
  (∀ k, match_port (foldr String.append "" (take k chunks)) = None) →
  settled (await_ready o st (PData <$> chunks))
    = Some (Throw (TErr (Error "Timeout waiting for CLI server to start")))
  ∧ seenPort (await_ready o st (PData <$> chunks)) = None.
Proof.
  intros Htcp Hquiet. unfold await_ready. rewrite fold_left_app.
  destruct (quiet_output_stays_pending o st chunks (spawned (useStdio o)))
    as (Hr & Hs & Hp); [done | by rewrite Htcp | by rewrite Htcp |].
  simpl. rewrite Hr. simpl. rewrite Hp. by rewrite Htcp.
Qed.

(** *** An announcement that arrives whole *)

Lemma pretty_N_char_digit (d : N) :
  (d < 10)%N →
  is_digit (pretty_N_char d) = true
  ∧ (Z.of_nat (nat_of_ascii (pretty_N_char d)) - 48 = Z.of_N d)%Z.
Proof.
  intros Hd.
  assert (d = 0 ∨ d = 1 ∨ d = 2 ∨ d = 3 ∨ d = 4 ∨ d = 5 ∨ d = 6 ∨ d = 7
          ∨ d = 8 ∨ d = 9)%N as Hcases by lia.
  repeat (destruct Hcases as [-> | Hcases]; [by vm_compute|]). subst. by vm_compute.
Qed.

(** The digits [pretty] writes are read back by [take_digits] and
    [parse_digits]. *)
Lemma pretty_N_go_read (x : N) (s : string) (acc : Z) :
  take_digits (pretty_N_go x s) = pretty_N_go x (take_digits s)
  ∧ ∃ m, ∀ acc, parse_digits acc (pretty_N_go x s)
                = parse_digits (acc * m + Z.of_N x) s.
Proof.
  clear acc. revert s. induction (N.lt_wf_0 x) as [x _ IH]; intros s.
  destruct (decide (x = 0%N)) as [->|Hx].
  { rewrite !pretty_N_go_0. split; [done|]. exists 1%Z. intros acc. f_equal. lia. }
  assert (0 < x)%N as Hpos by lia.
  rewrite !pretty_N_go_step by done.
  destruct (pretty_N_char_digit (x `mod` 10)%N) as [Hdig Hval];
    [by apply N.mod_lt|].
  destruct (IH (x `div` 10)%N) with (s := String (pretty_N_char (x `mod` 10)) s)
    as [Htake [m Hparse]]; [by apply N.div_lt|].
  split.
  - rewrite Htake. cbn [take_digits]. rewrite Hdig.
    by rewrite (pretty_N_go_step x (take_digits s)).
  - exists (m * 10)%Z. intros acc. rewrite Hparse. cbn [parse_digits]. f_equal.
    rewrite Hval. rewrite (N.div_mod x 10) at 3 by done.
    rewrite N2Z.inj_add, N2Z.inj_mul. simpl Z.of_N. lia.
Qed.

Lemma pretty_N_is_read (n : N) (rest : string) :
  take_digits rest = "" →
  take_digits (pretty n +:+ rest) = pretty n
  ∧ pretty n ≠ ""
  ∧ parseInt (pretty n) = Z.of_N n.
Proof.
  intros Hrest. unfold pretty, pretty_N.
  destruct (decide (n = 0%N)) as [->|Hn].
  { repeat split; [|done]. change ("0" +:+ rest) with (String "0" rest).
    simpl. by rewrite Hrest. }
  assert (Happ : ∀ x s, pretty_N_go x s +:+ rest = pretty_N_go x (s +:+ rest)).
  { intros x. induction (N.lt_wf_0 x) as [x _ IH]; intros s.
    destruct (decide (x = 0%N)) as [->|Hx]; [by rewrite !pretty_N_go_0|].
    rewrite (pretty_N_go_step x s), (pretty_N_go_step x (s +:+ rest)) by lia.
    rewrite IH; [reflexivity|]. apply N.div_lt; lia. }
  destruct (pretty_N_go_read n "" 0%Z) as [_ [m Hparse]].
  destruct (pretty_N_go_read n rest 0%Z) as [Htake _].
  repeat split.
  - rewrite Happ. change ("" +:+ rest) with rest. rewrite Htake, Hrest. done.
  - rewrite pretty_N_go_step by lia. intros Hempty.
    pose proof (pretty_N_go_read (n `div` 10)%N
                  (String (pretty_N_char (n `mod` 10)) "") 0%Z) as [Ht _].
    rewrite Hempty in Ht. simpl in Ht.
    destruct (pretty_N_char_digit (n `mod` 10)%N) as [Hdig _]; [by apply N.mod_lt|].
    rewrite Hdig in Ht.
    assert (Hne : ∀ x c s, pretty_N_go x (String c s) ≠ "").
    { clear. intros x. induction (N.lt_wf_0 x) as [x _ IH]; intros c s.
      destruct (decide (x = 0%N)) as [->|Hx]; [by rewrite pretty_N_go_0|].
      rewrite pretty_N_go_step by lia. apply IH. apply N.div_lt; lia. }
    by eapply Hne.
  - unfold parseInt. rewrite Hparse. simpl. lia.
Qed.

(** In TCP mode, a process whose first output is the whole line
    [listening on port <n>] makes the client ready with that [n]. *)
Lemma whole_announcement_is_read (o : CopilotClientOptions) (st : ConnectionState)
    (n : N) (rest : string) (events : list ProcEvent) :
  useStdio o = false →
  take_digits rest = "" →
  settled (await_ready o st (PData ("listening on port " +:+ pretty n +:+ rest) :: events))
    = Some (Ok ())
  ∧ seenPort (await_ready o st (PData ("listening on port " +:+ pretty n +:+ rest) :: events))
    = Some (Z.of_N n).
Proof.
  intros Htcp Hrest. unfold await_ready. simpl. rewrite Htcp.
  destruct (pretty_N_is_read n rest Hrest) as (Htake & Hne & Hparse).
  change ("" +:+ pretty n +:+ rest) with (pretty n +:+ rest). rewrite Htake.
  destruct (pretty n) as [|a digits] eqn:Hdigits; [done|]. cbn iota. simpl negb. cbn iota.
  rewrite Hparse.
  match goal with |- context [fold_left _ _ ?r] =>
    destruct (events_after_resolved o st (events ++ [PTimer]) r) as [-> ->]; done
  end.
Qed.

(** ** Query: teardown *)





(** The [finally] block always marks the turn finished and clears the
    timer; when the session's [destroy()] returns, or there is no session,
    it goes on to [stop()], which leaves the client stopped and its registry
    empty. *)
Lemma finally_stops_the_client env consumer (c : Completion) (l : QueryLocals) w :
  (∀ s, session l = Some s →
        acked (reply env (trace w ++ [EClearTimeout;
                                      destroy_request (sessionId (heap w s))])) = true) →
  turnFinished (query_finally env consumer c l w).1.2 = true
  ∧ EClearTimeout ∈ trace (query_finally env consumer c l w).2
  ∧ state (client (query_finally env consumer c l w).2) = disconnected
  ∧ cliProcess (client (query_finally env consumer c l w).2) = None
  ∧ connection (client (query_finally env consumer c l w).2) = false
  ∧ sessions (client (query_finally env consumer c l w).2) = [].
Proof.
  intros Hack. unfold query_finally. simpl.
  set (w1 := set_trace (trace w ++ [EClearTimeout]) w).
  assert (Hd : ∃ w2, (match session l with
                      | Some s => destroy env s
                      | None => ret ()
                      end) w1 = (Ok (), w2)
                     ∧ trace w1 `prefix_of` trace w2).
  { destruct (session l) as [s|] eqn:Hs; [|by exists w1].
    eexists. split.
    - apply destroy_acked. subst w1; simpl. rewrite <- app_assoc. by apply Hack.
    - simpl. by apply prefix_app_r. }
  destruct Hd as (w2 & -> & Hpre).
  destruct (stop_meets_spec env w2)
    as (seg & errs & w3 & _ & Hrun & Htr & Hss & Hconn & _ & Hproc & Hst & _).
  rewrite Hrun.
  assert (Hin : EClearTimeout ∈ trace w3).
  { rewrite Htr. apply elem_of_app. left.
    destruct Hpre as [k ->]. subst w1; simpl. set_solver. }
  destruct (0 <? length _)%nat; [|done].
  unfold yield_. simpl.
  destruct (consumer _ _) as [[| |e] u]; simpl;
    repeat split; try done; apply elem_of_app; by left.
Qed.


(** ** Query: the way to the event loop *)





(** Against a server that acknowledges every request, every run of [query],
    however its event loop ends and whatever the consumer does, has marked
    the turn finished, cleared the timer, and left the client stopped with
    an empty registry. *)
Lemma query_tears_down_when_acknowledged env (o : @QueryOptions U) consumer w :
  (∀ t, acked (reply env t) = true) →
  turnFinished (query env o consumer w).1.2 = true
  ∧ EClearTimeout ∈ trace (query env o consumer w).2
  ∧ state (client (query env o consumer w).2) = disconnected
  ∧ cliProcess (client (query env o consumer w).2) = None
  ∧ connection (client (query env o consumer w).2) = false
  ∧ sessions (client (query env o consumer w).2) = [].
Proof.
  intros Hack. unfold query, log, modify. cbv beta iota zeta.
  destruct (query_try env o consumer _) as [[c l] w'].
  apply finally_stops_the_client. intros s _. apply Hack.
Qed.

(** ** Query: timeout and session errors *)



End Properties.

(** * The properties at sample inputs *)

(** Three handlers, the second of which throws: all three are called. *)
Example dispatch_past_a_failing_handler :
  _dispatchEvent 3 0 Sample.message_event Sample.world =
    Some (Ok (), set_user 3 (set_trace [EInvoke 1 Sample.message_event;
                                        EInvoke 2 Sample.message_event;
                                        EInvoke 3 Sample.message_event] Sample.world)).
Proof. reflexivity. Qed.

Lemma dispatch_witness :
  Forall (steady 0 Sample.message_event) (eventHandlers (heap Sample.world 0))
  ∧ length (eventHandlers (heap Sample.world 0)) ≤ 3
  ∧ ∃ w', _dispatchEvent 3 0 Sample.message_event Sample.world = Some (Ok (), w')
          ∧ trace w' = [EInvoke 1 Sample.message_event;
                        EInvoke 2 Sample.message_event;
                        EInvoke 3 Sample.message_event]
          ∧ user w' = 3.
Proof.
  assert (Hsteady : Forall (steady 0 Sample.message_event)
                           (eventHandlers (heap Sample.world 0))).
  { repeat constructor. }
  assert (Hfuel : length (eventHandlers (heap Sample.world 0)) ≤ 3).
  { simpl. lia. }
  split; [exact Hsteady|]. split; [exact Hfuel|].
  destruct (dispatch_reaches_every_handler 3 0 Sample.message_event Sample.world
              Hsteady Hfuel) as (w' & Hrun & Htr & _ & Hu & _).
  exists w'. split; [exact Hrun|]. split; [exact Htr | exact Hu].
Defined.

(** Three handlers are registered and the first, when called, unsubscribes
    the third: the dispatch returns having called two of the three. *)
Lemma dispatch_skips_an_unsubscribed_handler :
  h_id <$> eventHandlers (heap Sample.world_hasty 0) = [1; 2; 3]
  ∧ (λ r, trace r.2) <$> _dispatchEvent 3 0 Sample.message_event Sample.world_hasty
    = Some [EInvoke 1 Sample.message_event; EInvoke 2 Sample.message_event]
  ∧ (λ r, h_id <$> eventHandlers (heap r.2 0))
      <$> _dispatchEvent 3 0 Sample.message_event Sample.world_hasty
    = Some [1; 2].
Proof. repeat split; reflexivity. Qed.

(** Against a server that rejects a second [session.destroy] for the same
    session, the first [destroy()] returns and the second one throws. *)
Lemma destroy_twice_second_raises :
  (destroy Sample.forgetful 0 Sample.world).1 = Ok ()
  ∧ (destroy Sample.forgetful 0 (destroy Sample.forgetful 0 Sample.world).2).1
    = Throw (TErr (Error "Session not found: s1")).
Proof. split; reflexivity. Qed.

Lemma destroy_twice_witness :
  acked (reply Sample.agreeable
           (trace Sample.world ++
            [destroy_request (sessionId (heap Sample.world 0))])) = true
  ∧ acked (reply Sample.agreeable
             (trace Sample.world ++
              [destroy_request (sessionId (heap Sample.world 0));
               destroy_request (sessionId (heap Sample.world 0))])) = true
  ∧ ∃ w1 w2,
      destroy Sample.agreeable 0 Sample.world = (Ok (), w1)
      ∧ destroy Sample.agreeable 0 w1 = (Ok (), w2)
      ∧ eventHandlers (heap w1 0) = [] ∧ toolHandlers (heap w1 0) = ∅
      ∧ eventHandlers (heap w2 0) = [] ∧ toolHandlers (heap w2 0) = ∅.
Proof.
  split; [reflexivity|]. split; [reflexivity|].
  apply (destroy_twice_when_acknowledged Sample.agreeable 0 Sample.world); reflexivity.
Defined.

(** Two sessions, one of which cannot be destroyed: one aggregated error,
    three attempts on it with the two delays, one attempt on the other, and
    an empty registry. *)
Example stop_with_one_stubborn_session :
  (stop Sample.stubborn Sample.world).1 =
    Ok [Error "Failed to destroy session s1 after 3 attempts: busy 3"]
  ∧ trace (stop Sample.stubborn Sample.world).2 =
      [destroy_request "s1"; EDelay 100; destroy_request "s1"; EDelay 200;
       destroy_request "s1"; destroy_request "s2"; EDispose; EKill None]
  ∧ sessions (client (stop Sample.stubborn Sample.world).2) = [].
Proof. repeat split; vm_compute; reflexivity. Qed.

Lemma stop_witness :
  ∃ errors w',
    stop Sample.stubborn Sample.world = (Ok errors, w')
    ∧ sessions (client w') = []
    ∧ errors = [Error "Failed to destroy session s1 after 3 attempts: busy 3"].
Proof.
  destruct (stop_retries_collects_and_returns Sample.stubborn Sample.world)
    as (errors & w' & Hrun & Hss & _ & _ & _ & _ & _ & Hspec).
  exists errors, w'. split; [exact Hrun|]. split; [exact Hss|].
  assert (Hs : sessions_spec Sample.stubborn (heap Sample.world)
                 (sessions (client Sample.world)) (trace Sample.world)
                 ([destroy_request "s1"; EDelay 100; destroy_request "s1";
                   EDelay 200; destroy_request "s1"] ++ [destroy_request "s2"] ++ [])
                 ([aggregated "s1" (TErr (Error "busy 3"))] ++ [] ++ [])).
  { apply (next_session _ _ "s1" 0).
    - eapply all_attempts_failed; reflexivity.
    - apply (next_session _ _ "s2" 1); [|apply no_session_left].
      apply first_attempt_ok. reflexivity. }
  destruct (Hspec _ _ Hs) as [-> _]. reflexivity.
Defined.

Lemma wellformed_call (sid cid name : string) :
  wellformed_tool_call (Sample.call sid cid name) sid cid name.
Proof. repeat split; eexists; (split; [reflexivity|]); reflexivity. Defined.

(** A request for the registered session [s1] and the unregistered tool
    [nope], without a [toolCallId]: the dispatcher throws. *)
Lemma untagged_tool_call_throws :
  assoc "s1" (sessions (client Sample.world)) = Some 0
  ∧ toolHandlers (heap Sample.world 0) !! "nope" = None
  ∧ handleToolCallRequest Sample.call_untagged Sample.world =
      (Throw (TErr (Error "Invalid tool call payload")), Sample.world).
Proof. repeat split; reflexivity. Qed.

Lemma unsupported_tool_witness :
  wellformed_tool_call (Sample.call "s1" "c1" "nope") "s1" "c1" "nope"
  ∧ assoc "s1" (sessions (client Sample.world)) = Some 0
  ∧ toolHandlers (heap Sample.world 0) !! "nope" = None
  ∧ handleToolCallRequest (Sample.call "s1" "c1" "nope") Sample.world =
      (Ok {| result := failure_result
               "Tool 'nope' is not supported by this client instance."
               "tool 'nope' not supported" |}, Sample.world).
Proof.
  split; [apply wellformed_call|]. split; [reflexivity|]. split; [reflexivity|].
  apply (unsupported_tool_is_answered (Sample.call "s1" "c1" "nope") "s1" "c1" "nope" 0);
    [apply wellformed_call | reflexivity | reflexivity].
Defined.

Lemma malformed_tool_call_witness :
  (∃ e, handleToolCallRequest Sample.call_untagged Sample.world
        = (Throw (TErr e), Sample.world)
        ∧ (e = Error "Invalid tool call payload"
           ∨ ∃ sid, string_field "sessionId" Sample.call_untagged sid
                    ∧ e = Error ("Unknown session " +:+ sid)))
  ∧ (∃ e, handleToolCallRequest (Sample.call "ghost" "c1" "echo") Sample.world
          = (Throw (TErr e), Sample.world)
          ∧ (e = Error "Invalid tool call payload"
             ∨ ∃ sid, string_field "sessionId" (Sample.call "ghost" "c1" "echo") sid
                      ∧ e = Error ("Unknown session " +:+ sid))).
Proof.
  split.
  - apply (malformed_tool_call_is_rejected Sample.call_untagged Sample.world).
    left. intros (sid & cid & name & _ & (fields & Heq & Hc) & _).
    injection Heq as <-. discriminate Hc.
  - apply (malformed_tool_call_is_rejected (Sample.call "ghost" "c1" "echo") Sample.world).
    right. exists "ghost". split; [|reflexivity].
    eexists. split; reflexivity.
Defined.

Lemma tool_call_witness :
  (executeToolCall Sample.broken (Sample.call "s1" "c1" "save") Sample.world).1 =
    Ok {| result := failure_result "disk full" "disk full" |}
  ∧ (executeToolCall Sample.silent (Sample.call "s1" "c2" "noop") Sample.world).1 =
      Ok {| result := failure_result "Tool returned no result" "tool returned no result" |}
  ∧ (executeToolCall Sample.echo (Sample.call "s1" "c3" "echo") Sample.world).1 =
      Ok {| result := TRString "echo" |}.
Proof.
  destruct (tool_call_is_always_answered Sample.broken (Sample.call "s1" "c1" "save")
              Sample.world) as (_ & Hthrows & _).
  destruct (tool_call_is_always_answered Sample.silent (Sample.call "s1" "c2" "noop")
              Sample.world) as (_ & _ & Hnothing & _).
  destruct (tool_call_is_always_answered Sample.echo (Sample.call "s1" "c3" "echo")
              Sample.world) as (_ & _ & _ & _ & Hstring).
  split; [|split].
  - apply (Hthrows (TErr (Error "disk full")) 0). reflexivity.
  - apply (Hnothing 0). reflexivity.
  - apply (Hstring "echo" 0). reflexivity.
Defined.

Lemma wellformed_note (sid : string) : wellformed_notification (Sample.note sid) sid.
Proof. split; eexists; (split; [reflexivity|]); [reflexivity | by eexists]. Defined.

Lemma notification_witness :
  handleSessionEventNotification 3 (JStr "junk") Sample.world
    = Some (Ok (), Sample.world)
  ∧ handleSessionEventNotification 3 (Sample.note "ghost") Sample.world
    = Some (Ok (), Sample.world)
  ∧ handleSessionEventNotification 3 (Sample.note "s2") Sample.world
    = _dispatchEvent 3 1 (get_prop "event" (Sample.note "s2")) Sample.world.
Proof.
  split; [|split].
  - apply (notification_is_dropped_or_forwarded 3 (JStr "junk") Sample.world).
    left. intros (sid & (fields & Heq & _) & _). discriminate Heq.
  - apply (notification_is_dropped_or_forwarded 3 (Sample.note "ghost") Sample.world).
    right. exists "ghost". split; [apply wellformed_note | reflexivity].
  - apply (notification_is_dropped_or_forwarded 3 (Sample.note "s2") Sample.world)
      with (sid := "s2"); [apply wellformed_note | reflexivity].
Defined.

(** The announcement in one chunk: the client dials the announced port. *)
Example whole_announcement_dials_the_port :
  seenPort (await_ready Sample.tcp_opts connecting Sample.announce_whole) = Some 54321%Z
  ∧ (start (Sample.env_proc Sample.announce_whole) (Sample.idle Sample.tcp_opts)).1 = Ok ()
  ∧ trace (start (Sample.env_proc Sample.announce_whole) (Sample.idle Sample.tcp_opts)).2 =
      [ESpawn "copilot" ["--server"; "--log-level"; "info"]; ESetTimeout 10000;
       EConnect 54321 "localhost"; EListen].
Proof. repeat split; vm_compute; reflexivity. Qed.

(** C9, at the input on which the code departs from it.  In TCP mode the
    process prints the line [listening on port 54321] and the line reaches
    the client in two chunks, the first ending inside the number.  The
    buffer ends up holding the whole line, whose announcement is 54321, but
    readiness was resolved on the first chunk: the port kept is 54, and that
    is the port [start()] then dials. *)
Theorem split_announcement_dials_a_truncated_port :
  stdout (await_ready Sample.tcp_opts connecting Sample.announce_split)
    = "listening on port 54321" +:+ Sample.newline
  ∧ match_port (stdout (await_ready Sample.tcp_opts connecting Sample.announce_split))
    = Some "54321"
  ∧ settled (await_ready Sample.tcp_opts connecting Sample.announce_split) = Some (Ok ())
  ∧ seenPort (await_ready Sample.tcp_opts connecting Sample.announce_split) = Some 54%Z
  ∧ (start (Sample.env_proc Sample.announce_split) (Sample.idle Sample.tcp_opts)).1 = Ok ()
  ∧ actualPort (client (start (Sample.env_proc Sample.announce_split)
                              (Sample.idle Sample.tcp_opts)).2) = Some 54%Z
  ∧ trace (start (Sample.env_proc Sample.announce_split) (Sample.idle Sample.tcp_opts)).2 =
      [ESpawn "copilot" ["--server"; "--log-level"; "info"]; ESetTimeout 10000;
       EConnect 54 "localhost"; EListen].
Proof. repeat split; vm_compute; reflexivity. Qed.

(** C1, at the input on which the code departs from it.  The turn completes
    (the idle event is yielded) and the server then rejects the
    [session.destroy] request that the [finally] block sends.  The turn has
    been marked finished and the timer cleared, but the rejection leaves the
    block at once: [stop()] is never called, the stream ends by throwing the
    rejection, and the client is left connected, with its process, its
    connection and the session still registered. *)
Theorem rejected_destroy_leaves_client_running :
  (query Sample.env_destroy_rejected Sample.ask Sample.reader (Sample.idle Sample.opts)).1
    = (Throwing (TErr (Error "Session s1 is busy")),
       {| session := Some 0; aborted := false; turnFinished := true |})
  ∧ trace (query Sample.env_destroy_rejected Sample.ask Sample.reader
                 (Sample.idle Sample.opts)).2
    = [ESetTimeout 60000;
       ESpawn "copilot" ["--server"; "--log-level"; "error"; "--stdio"];
       ESetTimeout 10000; EListen;
       ERequest "session.create"
         (JObj [("model", JUndefined); ("sessionId", JUndefined); ("tools", JUndefined)]);
       ERequest "session.send"
         (JObj [("sessionId", JStr "s1"); ("prompt", JStr "What is 2+2?");
                ("attachments", JUndefined); ("mode", JUndefined)]);
       EYield Sample.message_event; EYield Sample.idle_event;
       EClearTimeout; destroy_request "s1"]
  ∧ state (client (query Sample.env_destroy_rejected Sample.ask Sample.reader
                         (Sample.idle Sample.opts)).2) = connected
  ∧ cliProcess (client (query Sample.env_destroy_rejected Sample.ask Sample.reader
                              (Sample.idle Sample.opts)).2)
    = Some ("copilot", ["--server"; "--log-level"; "error"; "--stdio"])
  ∧ connection (client (query Sample.env_destroy_rejected Sample.ask Sample.reader
                              (Sample.idle Sample.opts)).2) = true
  ∧ sessions (client (query Sample.env_destroy_rejected Sample.ask Sample.reader
                            (Sample.idle Sample.opts)).2) = [("s1", 0)].
Proof. repeat split; vm_compute; reflexivity. Qed.

(** A run that times out against a server that acknowledges every request:
    the teardown runs to its end. *)
Example acknowledged_destroy_stops_the_client :
  (query Sample.env_silent Sample.ask Sample.reader (Sample.idle Sample.opts)).1.2
    = {| session := Some 0; aborted := true; turnFinished := true |}
  ∧ trace (query Sample.env_silent Sample.ask Sample.reader (Sample.idle Sample.opts)).2
    = [ESetTimeout 60000;
       ESpawn "copilot" ["--server"; "--log-level"; "error"; "--stdio"];
       ESetTimeout 10000; EListen;
       ERequest "session.create"
         (JObj [("model", JUndefined); ("sessionId", JUndefined); ("tools", JUndefined)]);
       ERequest "session.send"
         (JObj [("sessionId", JStr "s1"); ("prompt", JStr "What is 2+2?");
                ("attachments", JUndefined); ("mode", JUndefined)]);
       EClearTimeout; destroy_request "s1"; destroy_request "s1"; EDispose; EKill None]
  ∧ state (client (query Sample.env_silent Sample.ask Sample.reader
                         (Sample.idle Sample.opts)).2) = disconnected.
Proof. repeat split; vm_compute; reflexivity. Qed.


(** A server that answers [session.create] with [null]: reading the id off
    the reply throws, no session is registered, and the teardown still
    stops the client. *)
Example null_reply_is_a_type_error :
  (query (Sample.env_proc []) Sample.ask Sample.reader (Sample.idle Sample.opts)).1
    = (Throwing (TErr (mkError "TypeError"
                         "Cannot read properties of null (reading 'sessionId')")),
       {| session := None; aborted := false; turnFinished := true |})
  ∧ sessions (client (query (Sample.env_proc []) Sample.ask Sample.reader
                            (Sample.idle Sample.opts)).2) = []
  ∧ state (client (query (Sample.env_proc []) Sample.ask Sample.reader
                         (Sample.idle Sample.opts)).2) = disconnected.
Proof. repeat split; vm_compute; reflexivity. Qed.


Lemma replies_name_the_session (script : list IterItem) :
  names_sessions (Sample.env_of (fun _ => Ack (JObj [("sessionId", JStr "s1")])) script).
Proof.
  intros t params v Heq. injection Heq as <-.
  exists "s1". eexists. split; reflexivity.
Defined.


(** * More properties of the runtime *)

Section MoreProperties.

Context {U : Type}.

Implicit Types (w : @World U) (env : Env).

(** ** Operations that run none of the caller's code *)

Lemma quiet_ret {A} (a : A) : quiet (ret (U:=U) a).
Proof. intros w. split; [done|]. exists []. by rewrite app_nil_r. Qed.

Lemma quiet_throw {A} (e : thrown) : quiet (throw (U:=U) (A:=A) e).
Proof. intros w. split; [done|]. exists []. by rewrite app_nil_r. Qed.

Lemma quiet_bind {A B} (m : @M U A) (k : A → @M U B) :
  quiet m → (∀ a, quiet (k a)) → quiet (bind m k).
Proof.
  intros Hm Hk w. unfold bind.
  destruct (Hm w) as (Hu & seg & Ht & Hseg).
  destruct (m w) as [[a|e] w1]; simpl in *; [|eauto].
  destruct (Hk a w1) as (Hu' & seg' & Ht' & Hseg').
  split; [congruence|]. exists (seg ++ seg').
  rewrite Ht', Ht, app_assoc. split; [done|]. by apply Forall_app.
Qed.

Lemma quiet_try_catch {A} (m : @M U A) (h : thrown → @M U A) :
  quiet m → (∀ e, quiet (h e)) → quiet (try_catch m h).
Proof.
  intros Hm Hh w. unfold try_catch.
  destruct (Hm w) as (Hu & seg & Ht & Hseg).
  destruct (m w) as [[a|e] w1]; simpl in *; [eauto|].
  destruct (Hh e w1) as (Hu' & seg' & Ht' & Hseg').
  split; [congruence|]. exists (seg ++ seg').
  rewrite Ht', Ht, app_assoc. split; [done|]. by apply Forall_app.
Qed.

Lemma quiet_modify (f : @World U → @World U) :
  (∀ w, user (f w) = user w ∧ trace (f w) = trace w) → quiet (modify f).
Proof.
  intros Hf w. destruct (Hf w) as [Hu Ht]. split; [done|]. exists [].
  simpl. by rewrite Ht, app_nil_r.
Qed.

Lemma quiet_log (eff : Effect) : is_callback eff = false → quiet (log (U:=U) eff).
Proof. intros Heff w. split; [done|]. exists [eff]. split; [done|]. by constructor. Qed.

Lemma quiet_external env (eff : Effect) :
  is_callback eff = false → quiet (external (U:=U) env eff).
Proof.
  intros Heff w. unfold external.
  destruct (reply env (trace w ++ [eff])); (split; [done|]);
    exists [eff]; (split; [done|]); by constructor.
Qed.

Lemma quiet_update_client (f : CopilotClient → CopilotClient) :
  quiet (update_client (U:=U) f).
Proof. by apply quiet_modify. Qed.

Lemma quiet_put_session (l : nat) (s : @CopilotSession U) : quiet (put_session l s).
Proof. by apply quiet_modify. Qed.

Lemma quiet_get_client : quiet (get_client (U:=U)).
Proof. intros w. split; [done|]. exists []. by rewrite app_nil_r. Qed.

Lemma quiet_get_session (l : nat) : quiet (get_session (U:=U) l).
Proof. intros w. split; [done|]. exists []. by rewrite app_nil_r. Qed.

Lemma quiet_get_world : quiet (get_world (U:=U)).
Proof. intros w. split; [done|]. exists []. by rewrite app_nil_r. Qed.

(** Goes through an operation built from the pieces above. *)
Ltac quiet_step :=
  first
    [ assumption
    | apply quiet_ret | apply quiet_throw | apply quiet_get_client
    | apply quiet_get_session | apply quiet_get_world | apply quiet_update_client
    | apply quiet_put_session
    | apply quiet_log; reflexivity | apply quiet_external; reflexivity
    | apply quiet_modify; done
    | apply quiet_bind; [|intros ?] | apply quiet_try_catch; [|intros ?]
    | match goal with
      | |- quiet (if ?b then _ else _) => destruct b
      | |- quiet (match ?x with _ => _ end) => destruct x
      end ].

Ltac quiet_auto := repeat quiet_step.

Lemma quiet_destroy env (l : nat) : quiet (destroy (U:=U) env l).
Proof. unfold destroy, sendRequest. quiet_auto. Qed.

Lemma quiet_destroy_attempts env (n : nat) (last : option JsError) (l : nat) :
  quiet (destroy_attempts (U:=U) env n last l).
Proof.
  revert last. induction n as [|n IH]; intros last; cbn [destroy_attempts]; [quiet_auto|].
  pose proof (quiet_destroy env l). quiet_auto. apply IH.
Qed.

Lemma quiet_destroy_sessions env (ss : list (string * nat)) (errors : list JsError) :
  quiet (destroy_sessions (U:=U) env ss errors).
Proof.
  revert errors. induction ss as [|[k l] ss IH]; intros errors; cbn [destroy_sessions];
    [quiet_auto|].
  apply quiet_bind; [quiet_auto|]. intros s.
  apply quiet_bind; [apply quiet_destroy_attempts|]. intros last. apply IH.
Qed.

Lemma quiet_stop env : quiet (stop (U:=U) env).
Proof.
  unfold stop, guarded.
  apply quiet_bind; [quiet_auto|]. intros c.
  apply quiet_bind; [apply quiet_destroy_sessions|]. intros errors.
  quiet_auto.
Qed.

Lemma quiet_start env : quiet (start (U:=U) env).
Proof.
  unfold start, startCLIServer, connectToServer, connectViaStdio, connectViaTcp.
  quiet_auto.
Qed.

Lemma quiet_createSession env (config : @SessionConfig U) :
  quiet (createSession env config).
Proof.
  unfold createSession, sendRequest, registerTools.
  pose proof (quiet_start env). quiet_auto.
Qed.

Lemma quiet_forceStop env : quiet (forceStop (U:=U) env).
Proof. unfold forceStop, swallowed. quiet_auto. Qed.

Lemma quiet_reconnect env : quiet (reconnect (U:=U) env).
Proof.
  unfold reconnect. pose proof (quiet_stop env). pose proof (quiet_start env).
  quiet_auto.
Qed.

Lemma quiet_on (l : nat) (h : @SessionEventHandler U) : quiet (on l h).
Proof. unfold on. quiet_auto. Qed.

(** X1. Starting, stopping, force-stopping and reconnecting the client,
    creating a session and destroying one run none of the caller's code: no
    event handler and no tool handler is called, nothing is yielded, the
    caller's state is as before, and the log only grows. *)
Theorem lifecycle_runs_no_caller_code env :
  quiet (start (U:=U) env)
  ∧ quiet (stop (U:=U) env)
  ∧ quiet (forceStop (U:=U) env)
  ∧ quiet (reconnect (U:=U) env)
  ∧ (∀ config : @SessionConfig U, quiet (createSession env config))
  ∧ (∀ l, quiet (destroy (U:=U) env l)).
Proof.
  split; [apply quiet_start|]. split; [apply quiet_stop|].
  split; [apply quiet_forceStop|]. split; [apply quiet_reconnect|].
  split; [apply quiet_createSession | apply quiet_destroy].
Qed.

(** ** Session: the handler set *)

Lemma set_add_ids (h : @SessionEventHandler U) (hs : list (@SessionEventHandler U)) :
  h_id h ∈ (h_id <$> hs) → set_add h hs = hs.
Proof.
  intros Hin. unfold set_add.
  assert (existsb (fun h' => Nat.eqb (h_id h') (h_id h)) hs = true) as ->; [|done].
  apply existsb_exists. apply list_elem_of_fmap in Hin as (h' & Heq & Hin).
  exists h'. split; [by apply list_elem_of_In|]. by apply Nat.eqb_eq.
Qed.

Lemma set_add_fresh (h : @SessionEventHandler U) (hs : list (@SessionEventHandler U)) :
  h_id h ∉ (h_id <$> hs) → set_add h hs = hs ++ [h].
Proof.
  intros Hnin. unfold set_add.
  destruct (existsb _ hs) eqn:Hex; [|done].
  apply existsb_exists in Hex as (h' & Hin & Heq). apply Nat.eqb_eq in Heq.
  destruct Hnin. apply list_elem_of_fmap. exists h'. split; [done|].
  by apply list_elem_of_In.
Qed.

Lemma set_delete_fresh (h : @SessionEventHandler U) (hs : list (@SessionEventHandler U)) :
  h_id h ∉ (h_id <$> hs) → set_delete h hs = hs.
Proof.
  induction hs as [|h' hs IH]; intros Hnin; [done|]. simpl in *.
  apply not_elem_of_cons in Hnin as [Hne Hnin].
  destruct (Nat.eqb_spec (h_id h') (h_id h)) as [Heq|_]; [congruence|].
  simpl. by rewrite IH.
Qed.

Lemma set_delete_gone (h : @SessionEventHandler U) (hs : list (@SessionEventHandler U)) :
  h_id h ∉ (h_id <$> set_delete h hs).
Proof.
  induction hs as [|h' hs IH]; simpl; [by apply not_elem_of_nil|].
  destruct (Nat.eqb_spec (h_id h') (h_id h)) as [Heq|Hne]; simpl; [done|].
  apply not_elem_of_cons. split; [congruence | done].
Qed.

(** X2. A session's handlers are a set: when the registered handlers are
    pairwise distinct, subscribing a handler keeps them so and makes the
    handler one of them, and subscribing it a second time changes nothing,
    so that a dispatch calls it once. *)
Theorem subscribing_twice_registers_once (l : nat) (h : @SessionEventHandler U) w :
  NoDup (h_id <$> eventHandlers (heap w l)) →
  NoDup (h_id <$> eventHandlers (heap (on l h w).2 l))
  ∧ h_id h ∈ (h_id <$> eventHandlers (heap (on l h w).2 l))
  ∧ eventHandlers (heap (on l h (on l h w).2).2 l)
    = eventHandlers (heap (on l h w).2 l).
Proof.
  intros Hnd. unfold on, bind, get_session, put_session, modify. simpl.
  rewrite !decide_True by done. simpl.
  destruct (decide (h_id h ∈ (h_id <$> eventHandlers (heap w l)))) as [Hin|Hnin].
  - rewrite !(set_add_ids h _ Hin). done.
  - rewrite (set_add_fresh h (eventHandlers (heap w l))) by done.
    assert (Hin : h_id h ∈ (h_id <$> eventHandlers (heap w l) ++ [h])).
    { rewrite fmap_app. apply elem_of_app. right. simpl. by apply list_elem_of_singleton. }
    rewrite (set_add_ids h _ Hin). repeat split; [|done].
    rewrite fmap_app. apply NoDup_app. repeat split; [done| |by apply NoDup_singleton].
    intros x Hx Hx'. simpl in Hx'. apply list_elem_of_singleton in Hx'. by subst.
Qed.

(** X3. The function that [on] returns undoes the subscription: for a
    handler that was not subscribed before, subscribing and then
    unsubscribing leaves the session's handlers exactly as they were. *)
Theorem unsubscribing_undoes_subscribing (l : nat) (h : @SessionEventHandler U) w :
  h_id h ∉ (h_id <$> eventHandlers (heap w l)) →
  eventHandlers (heap (unsubscribe l h (on l h w).2).2 l) = eventHandlers (heap w l)
  ∧ toolHandlers (heap (unsubscribe l h (on l h w).2).2 l) = toolHandlers (heap w l)
  ∧ ∀ l', l' ≠ l → heap (unsubscribe l h (on l h w).2).2 l' = heap w l'.
Proof.
  intros Hfresh. unfold unsubscribe, on, bind, get_session, put_session, modify. simpl.
  rewrite !decide_True by done. simpl. split; [|split; [done|]].
  - rewrite set_add_fresh by done. unfold set_delete. rewrite List.filter_app. simpl.
    rewrite Nat.eqb_refl. simpl. rewrite app_nil_r.
    by apply set_delete_fresh.
  - intros l' Hne. by rewrite !decide_False by done.
Qed.

(** X4. After a handler is unsubscribed, a dispatch calls every handler that
    is still subscribed, in the order they had, and does not call the
    unsubscribed one.  The handlers that remain are taken not to subscribe or
    unsubscribe on this session during the dispatch. *)
Theorem unsubscribed_handler_is_not_called (fuel l : nat)
    (h : @SessionEventHandler U) (event : jsval) w :
  Forall (steady l event) (set_delete h (eventHandlers (heap w l))) →
  length (eventHandlers (heap w l)) ≤ fuel →
  ∃ w', _dispatchEvent fuel l event (unsubscribe l h w).2 = Some (Ok (), w')
    ∧ trace w' = trace w ++ List.map (fun h' => EInvoke (h_id h') event)
                                     (set_delete h (eventHandlers (heap w l)))
    ∧ EInvoke (h_id h) event
        ∉ List.map (fun h' => EInvoke (h_id h') event)
                   (set_delete h (eventHandlers (heap w l))).
Proof.
  intros Hsteady Hfuel. unfold _dispatchEvent.
  assert (Hhs : eventHandlers (heap (unsubscribe l h w).2 l)
                = set_delete h (eventHandlers (heap w l))).
  { unfold unsubscribe, bind, get_session, put_session, modify. simpl.
    by rewrite decide_True. }
  rewrite Hhs.
  destruct (dispatch_loop_runs_all fuel l (set_delete h (eventHandlers (heap w l)))
              event (unsubscribe l h w).2 Hsteady)
    as (w' & Hrun & Htr & _).
  { unfold set_delete. etrans; [apply List.filter_length_le|exact Hfuel]. }
  exists w'. split; [exact Hrun|].
  split; [exact Htr|].
  intros Hin. apply list_elem_of_In, in_map_iff in Hin as (h' & Heq & Hin').
  injection Heq as Heq. apply (set_delete_gone h (eventHandlers (heap w l))).
  apply list_elem_of_fmap. exists h'. split; [done|]. by apply list_elem_of_In.
Qed.

(** ** Session: handlers that unsubscribe themselves *)

Lemma set_delete_sublist (h : @SessionEventHandler U) (hs : list (@SessionEventHandler U)) :
  sublist (set_delete h hs) hs.
Proof.
  induction hs as [|h' hs IH]; simpl; [constructor|].
  destruct (negb (h_id h' =? h_id h)); by constructor.
Qed.

Lemma perform_retiring (l i : nat) (subs : list (Subscription (@SessionEventHandler U)))
    (pending : list (@SessionEventHandler U)) w :
  Forall (fun a => target a ≠ l ∨ ∃ g, a = Unsubscribe l g ∧ h_id g = i) subs →
  i ∉ (h_id <$> pending) →
  ∃ w', fold_left (perform l) subs (w, pending) = (w', pending)
    ∧ trace w' = trace w
    ∧ user w' = user w
    ∧ sublist (eventHandlers (heap w' l)) (eventHandlers (heap w l)).
Proof.
  intros Hsubs Hfresh. revert w. induction Hsubs as [|a subs Ha _ IH]; intros w.
  { by exists w. }
  cbn [fold_left].
  assert (Hstep : ∃ w1, perform l (w, pending) a = (w1, pending)
                        ∧ trace w1 = trace w ∧ user w1 = user w
                        ∧ sublist (eventHandlers (heap w1 l)) (eventHandlers (heap w l))).
  { destruct Ha as [Ha|(g & -> & Hg)].
    - destruct (perform_elsewhere l [a] pending w) as (w1 & Hrun & Htr & Hu & Hh & _).
      { by constructor. }
      exists w1. cbn [fold_left] in Hrun. by rewrite Hrun, Htr, Hu, Hh.
    - unfold perform. rewrite Nat.eqb_refl.
      rewrite set_delete_fresh by (by rewrite Hg).
      eexists. split; [reflexivity|].
      unfold unsubscribe, bind, get_session, put_session, modify. simpl.
      rewrite decide_True by done. simpl.
      repeat split. apply set_delete_sublist. }
  destruct Hstep as (w1 & -> & Htr1 & Hu1 & Hsub1).
  destruct (IH w1) as (w' & Hrun & Htr & Hu & Hsub).
  exists w'. rewrite Hrun, Htr, Hu, Htr1, Hu1. repeat split.
  by etrans.
Qed.

(** X5. A handler may unsubscribe itself while it is being called without
    disturbing the delivery: when the handlers of a session are pairwise
    distinct and each of them does nothing to the session's handlers except,
    possibly, unsubscribe itself, a dispatch calls every one of them once, in
    registration order, and subscribes nothing new. *)
Theorem self_unsubscribing_handlers_are_all_called (fuel l : nat) (event : jsval) w :
  NoDup (h_id <$> eventHandlers (heap w l)) →
  Forall (retiring l event) (eventHandlers (heap w l)) →
  length (eventHandlers (heap w l)) ≤ fuel →
  ∃ w', _dispatchEvent fuel l event w = Some (Ok (), w')
    ∧ trace w' = trace w ++ List.map (fun h => EInvoke (h_id h) event)
                                     (eventHandlers (heap w l))
    ∧ user w' = fold_left (fun u h => snd (h_call h event u))
                          (eventHandlers (heap w l)) (user w)
    ∧ sublist (eventHandlers (heap w' l)) (eventHandlers (heap w l)).
Proof.
  unfold _dispatchEvent.
  assert (Hloop : ∀ hs fuel w,
    NoDup (h_id <$> hs) → Forall (retiring l event) hs → length hs ≤ fuel →
    ∃ w', dispatch_loop fuel l hs event w = Some (Ok (), w')
      ∧ trace w' = trace w ++ List.map (fun h => EInvoke (h_id h) event) hs
      ∧ user w' = fold_left (fun u h => snd (h_call h event u)) hs (user w)
      ∧ sublist (eventHandlers (heap w' l)) (eventHandlers (heap w l))).
  { clear fuel w. intros hs. induction hs as [|h hs IH]; intros fuel w Hdup Hall Hfuel.
    - exists w. rewrite app_nil_r. by destruct fuel.
    - destruct fuel as [|fuel]; [simpl in Hfuel; lia|].
      rewrite fmap_cons in Hdup. apply NoDup_cons in Hdup as [Hfresh Hdup].
      apply Forall_cons in Hall as [Hh Hall].
      cbn [dispatch_loop].
      unfold bind, try_catch, call_handler, bind, log, modify, ret. simpl.
      destruct (h_call h event (user w)) as [r u] eqn:Hcall.
      set (w1 := set_user u (set_trace (trace w ++ [EInvoke (h_id h) event]) w)).
      destruct (perform_retiring l (h_id h) (h_subs h event (user w)) hs w1
                  (Hh (user w)) Hfresh)
        as (w2 & Hsubs & Htr2 & Hu2 & Hsub2).
      destruct (IH fuel w2 Hdup Hall) as (w' & Hrun & Htr & Hu & Hsub);
        [simpl in Hfuel; lia|].
      exists w'.
      assert (Hgoal : (let (w3, rest) := fold_left (perform l) (h_subs h event (user w))
                                           (w1, hs) in
                       dispatch_loop fuel l rest event w3) = Some (Ok (), w')).
      { by rewrite Hsubs. }
      split.
      { destruct r as [[]|e]; simpl; exact Hgoal. }
      rewrite Htr, Hu, Htr2, Hu2. subst w1. simpl.
      rewrite <- app_assoc. repeat split.
      etrans; [exact Hsub|exact Hsub2]. }
  intros Hdup Hall Hfuel. by apply Hloop.
Qed.

(** ** Session: the tool map *)

Lemma last_named_cons (name : string) (tool : @Tool U) (tools : list (@Tool U)) :
  last_named name (tool :: tools) =
    match last_named name tools with
    | Some handler => Some handler
    | None => if String.eqb (tool_name tool) name then Some (tool_handler tool) else None
    end.
Proof.
  unfold last_named. simpl.
  destruct (String.eqb (tool_name tool) name); [|by destruct (last _)].
  rewrite last_cons. by destruct (last _).
Qed.

Lemma register_loop_lookup (tools : list (@Tool U)) (m : gmap string (@ToolHandler U))
    (name : string) :
  register_loop tools m !! name =
    match last_named name tools with
    | Some handler => Some handler
    | None => m !! name
    end.
Proof.
  revert m. induction tools as [|tool tools IH]; intros m; [done|].
  cbn [register_loop]. rewrite IH, last_named_cons.
  destruct (last_named name tools); [done|].
  destruct (String.eqb_spec (tool_name tool) name) as [->|Hne].
  - by rewrite lookup_insert_eq.
  - by rewrite lookup_insert_ne.
Qed.

(** X6. [registerTools] replaces the tool map: whatever was registered
    before, looking a name up afterwards gives the handler of the last tool
    of the list that bears the name, and nothing when no tool of the list
    does or when no list was given. *)
Theorem registered_tools_replace_the_map (l : nat) (tools : option (list (@Tool U)))
    (name : string) w :
  (getToolHandler l name (registerTools l tools w).2).1 =
    Ok (match tools with
        | Some tools => last_named name tools
        | None => None
        end)
  ∧ eventHandlers (heap (registerTools l tools w).2 l) = eventHandlers (heap w l).
Proof.
  unfold getToolHandler, registerTools, bind, get_session, put_session, modify, ret.
  simpl. rewrite decide_True by done. simpl. split; [|done]. f_equal.
  destruct tools as [tools|]; [|done].
  rewrite register_loop_lookup. by destruct (last_named name tools).
Qed.

(** ** Session: destroy, and what follows it *)

(** X7. Once [destroy()] has returned, the session is silent: dispatching an
    event on it calls nothing, and every well-formed [tool.call] that reaches
    it through the registry is answered with the "not supported" failure. *)
Theorem destroyed_session_goes_silent env (fuel l : nat) (event params : jsval)
    (sid cid name : string) w :
  acked (reply env (trace w ++ [destroy_request (sessionId (heap w l))])) = true →
  wellformed_tool_call params sid cid name →
  assoc sid (sessions (client w)) = Some l →
  _dispatchEvent fuel l event (destroy env l w).2 = Some (Ok (), (destroy env l w).2)
  ∧ handleToolCallRequest params (destroy env l w).2 =
      (Ok {| result := failure_result
               ("Tool '" +:+ name +:+ "' is not supported by this client instance.")
               ("tool '" +:+ name +:+ "' not supported") |}, (destroy env l w).2).
Proof.
  intros Hack Hwf Hreg. rewrite (destroy_acked env l w Hack). cbn [snd].
  set (w1 := cleared l _).
  destruct (cleared_empty l (set_trace (trace w ++ [destroy_request (sessionId (heap w l))]) w))
    as [Hev Htools].
  split.
  - unfold _dispatchEvent. fold w1 in Hev. rewrite Hev. by destruct fuel.
  - unfold handleToolCallRequest.
    rewrite (proj2 (tool_call_guard params)) by eauto.
    destruct Hwf as (Hs & _ & Hn).
    apply string_field_get in Hs as [Hs _]. apply string_field_get in Hn as [Hn _].
    unfold bind, get_client, getToolHandler, bind, get_session, ret.
    rewrite Hs, Hn. simpl. rewrite Hreg. fold w1 in Htools. rewrite Htools.
    by rewrite lookup_empty.
Qed.

(** X8. A [destroy()] whose request is rejected throws the rejection and
    leaves the session as it was: its handlers stay subscribed, its tools
    stay registered, and a dispatch after it still calls every handler
    (handlers taken not to subscribe or unsubscribe on this session during
    the dispatch). *)
Theorem rejected_destroy_keeps_the_session env (fuel l : nat) (e : thrown)
    (event : jsval) w :
  reply env (trace w ++ [destroy_request (sessionId (heap w l))]) = Nack e →
  Forall (steady l event) (eventHandlers (heap w l)) →
  length (eventHandlers (heap w l)) ≤ fuel →
  (destroy env l w).1 = Throw e
  ∧ heap (destroy env l w).2 = heap w
  ∧ client (destroy env l w).2 = client w
  ∧ ∃ w', _dispatchEvent fuel l event (destroy env l w).2 = Some (Ok (), w')
          ∧ trace w' = trace (destroy env l w).2
                       ++ List.map (fun h => EInvoke (h_id h) event)
                                   (eventHandlers (heap w l)).
Proof.
  intros Hnack Hsteady Hfuel. rewrite (destroy_nacked env l w e Hnack). cbn [fst snd].
  repeat split.
  unfold _dispatchEvent.
  destruct (dispatch_loop_runs_all fuel l (eventHandlers (heap w l)) event
              (set_trace (trace w ++ [destroy_request (sessionId (heap w l))]) w)
              Hsteady Hfuel)
    as (w' & Hrun & Htr & _).
  exists w'. split; [exact Hrun | exact Htr].
Qed.

(** ** Client: tool dispatch *)

Lemma tool_call_runs_registered_handler (params : jsval) (sid cid name : string)
    (l : nat) (handler : @ToolHandler U) w :
  wellformed_tool_call params sid cid name →
  assoc sid (sessions (client w)) = Some l →
  toolHandlers (heap w l) !! name = Some handler →
  handleToolCallRequest params w = executeToolCall handler params w.
Proof.
  intros Hwf Hreg Hh. unfold handleToolCallRequest.
  rewrite (proj2 (tool_call_guard params)) by eauto.
  destruct Hwf as (Hs & _ & Hn).
  apply string_field_get in Hs as [Hs _]. apply string_field_get in Hn as [Hn _].
  unfold bind, get_client, getToolHandler, bind, get_session, ret.
  rewrite Hs, Hn. simpl. by rewrite Hreg, Hh.
Qed.

(** X9. A well-formed [tool.call] for a registered session and a registered
    tool calls that tool's handler exactly once, with an invocation carrying
    exactly the four fields of the payload, and returns what
    [executeToolCall] makes of it; it does not throw. *)
Theorem registered_tool_is_called_once (params : jsval) (sid cid name : string)
    (l : nat) (handler : @ToolHandler U) w :
  wellformed_tool_call params sid cid name →
  assoc sid (sessions (client w)) = Some l →
  toolHandlers (heap w l) !! name = Some handler →
  handleToolCallRequest params w = executeToolCall handler params w
  ∧ (∃ response, (handleToolCallRequest params w).1 = Ok response)
  ∧ trace (handleToolCallRequest params w).2 =
      trace w ++ [EToolInvoke {| inv_sessionId := sid; inv_toolCallId := cid;
                                 inv_toolName := name;
                                 inv_arguments := get_prop "arguments" params |}]
  ∧ user (handleToolCallRequest params w).2 =
      (handler {| inv_sessionId := sid; inv_toolCallId := cid; inv_toolName := name;
                  inv_arguments := get_prop "arguments" params |} (user w)).2.
Proof.
  intros Hwf Hreg Hh.
  pose proof (tool_call_runs_registered_handler params sid cid name l handler w
                Hwf Hreg Hh) as Heq.
  split; [exact Heq|]. rewrite Heq.
  assert (Hinv : invocation_of params =
                 {| inv_sessionId := sid; inv_toolCallId := cid; inv_toolName := name;
                    inv_arguments := get_prop "arguments" params |}).
  { destruct Hwf as (Hs & Hc & Hn).
    apply string_field_get in Hs as [Hs _]. apply string_field_get in Hc as [Hc _].
    apply string_field_get in Hn as [Hn _].
    unfold invocation_of. by rewrite Hs, Hc, Hn. }
  unfold executeToolCall, try_catch, bind, call_tool, bind, log, modify, ret. simpl.
  rewrite Hinv.
  destruct (handler _ (user w)) as [[r|e] u]; simpl; eauto.
Qed.

(** X10. Whatever the payload, the dispatcher of [tool.call] calls at most
    one tool handler, and does nothing else that the outside can see: it
    sends no request and touches no process, socket or timer. *)
Theorem tool_dispatch_calls_at_most_one_tool (params : jsval) w :
  trace (handleToolCallRequest params w).2 = trace w
  ∨ ∃ invocation,
      trace (handleToolCallRequest params w).2 = trace w ++ [EToolInvoke invocation].
Proof.
  destruct (handleToolCallRequest params w) as [r w'] eqn:Hrun. cbn [snd].
  unfold handleToolCallRequest, bind, get_client, getToolHandler, get_session, ret,
    executeToolCall, try_catch, call_tool, bind, log, modify, throw in Hrun.
  simpl in Hrun.
  repeat (first [progress simplify_eq | case_match | progress simpl in *
                | progress unfold ret in *]);
    repeat split; eauto.
Qed.

(** ** Operations that leave the sessions alone *)

Lemma same_sessions_refl w : same_sessions w w.
Proof. done. Qed.

Lemma same_sessions_trans w1 w2 w3 :
  same_sessions w1 w2 → same_sessions w2 w3 → same_sessions w1 w3.
Proof. intros (?&?&?&?) (?&?&?&?). repeat split; congruence. Qed.

Lemma keeps_ret {A} (a : A) : keeps same_sessions (ret (U:=U) a).
Proof. intros w. apply same_sessions_refl. Qed.

Lemma keeps_throw {A} (e : thrown) : keeps same_sessions (throw (U:=U) (A:=A) e).
Proof. intros w. apply same_sessions_refl. Qed.

Lemma keeps_bind {A B} (m : @M U A) (k : A → @M U B) :
  keeps same_sessions m → (∀ a, keeps same_sessions (k a)) →
  keeps same_sessions (bind m k).
Proof.
  intros Hm Hk w. unfold bind. specialize (Hm w).
  destruct (m w) as [[a|e] w1]; simpl in *; [|done].
  eapply same_sessions_trans; [exact Hm | apply Hk].
Qed.

Lemma keeps_try_catch {A} (m : @M U A) (h : thrown → @M U A) :
  keeps same_sessions m → (∀ e, keeps same_sessions (h e)) →
  keeps same_sessions (try_catch m h).
Proof.
  intros Hm Hh w. unfold try_catch. specialize (Hm w).
  destruct (m w) as [[a|e] w1]; simpl in *; [done|].
  eapply same_sessions_trans; [exact Hm | apply Hh].
Qed.

Lemma keeps_modify (f : @World U → @World U) :
  (∀ w, same_sessions w (f w)) → keeps same_sessions (modify f).
Proof. intros Hf w. apply Hf. Qed.

Lemma keeps_log (eff : Effect) : keeps same_sessions (log (U:=U) eff).
Proof. by apply keeps_modify. Qed.

Lemma keeps_external env (eff : Effect) : keeps same_sessions (external (U:=U) env eff).
Proof. intros w. unfold external. by destruct (reply env _). Qed.

Lemma keeps_get_client : keeps same_sessions (get_client (U:=U)).
Proof. intros w. apply same_sessions_refl. Qed.

Lemma keeps_get_world : keeps same_sessions (get_world (U:=U)).
Proof. intros w. apply same_sessions_refl. Qed.

Ltac keeps_step :=
  first
    [ assumption
    | apply keeps_ret | apply keeps_throw | apply keeps_get_client
    | apply keeps_get_world | apply keeps_log | apply keeps_external
    | apply keeps_modify; done
    | apply keeps_bind; [|intros ?] | apply keeps_try_catch; [|intros ?]
    | match goal with
      | |- keeps _ (if ?b then _ else _) => destruct b
      | |- keeps _ (match ?x with _ => _ end) => destruct x
      end ].

Lemma start_keeps_sessions env : keeps same_sessions (start (U:=U) env).
Proof.
  unfold start, startCLIServer, connectToServer, connectViaStdio, connectViaTcp,
    update_client.
  repeat keeps_step.
Qed.

(** ** Client: start *)

Lemma start_when_connected env w :
  state (client w) = connected → start (U:=U) env w = (Ok (), w).
Proof. intros Hst. unfold start, bind, get_client. by rewrite Hst. Qed.

Lemma connectToServer_connects env (w w' : @World U) :
  connectToServer env w = (Ok (), w') → connection (client w') = true.
Proof.
  unfold connectToServer, connectViaStdio, connectViaTcp, try_catch, bind, get_client,
    update_client, log, external, modify, throw, ret.
  intros Hrun. simpl in Hrun.
  repeat (first [progress simplify_eq | case_match | progress simpl in *]); done.
Qed.

Lemma start_outcome env w :
  state (client w) ≠ connected →
  (start (U:=U) env w).1 = Ok ()
  ∧ state (client (start env w).2) = connected
  ∧ connection (client (start env w).2) = true
  ∨ (∃ e, (start env w).1 = Throw e)
    ∧ state (client (start env w).2) = error_state.
Proof.
  intros Hst.
  assert (Hbody : ∀ w0 : @World U,
    let r := bind (update_client (set_state connecting)) (fun _ =>
              try_catch
                (bind (startCLIServer env) (fun _ =>
                 bind (connectToServer env) (fun _ =>
                 update_client (set_state connected))))
                (fun error =>
                   bind (update_client (set_state error_state)) (fun _ =>
                   throw error))) w0 in
    r.1 = Ok () ∧ state (client r.2) = connected ∧ connection (client r.2) = true
    ∨ (∃ e, r.1 = Throw e) ∧ state (client r.2) = error_state).
  { intros w0. cbv zeta. unfold bind, try_catch, update_client, modify, throw.
    destruct (startCLIServer env _) as [[[]|e] w1]; cbn [fst snd];
      [|right; split; [eauto|done]].
    destruct (connectToServer env w1) as [[[]|e] w2] eqn:Hc; cbn [fst snd];
      [|right; split; [eauto|done]].
    left. split; [done|]. split; [done|].
    cbn [client set_client connection set_state].
    by apply (connectToServer_connects env w1 w2). }
  specialize (Hbody w). cbv zeta in Hbody.
  assert (Heq : start env w =
    bind (update_client (set_state connecting)) (fun _ =>
      try_catch
        (bind (startCLIServer env) (fun _ =>
         bind (connectToServer env) (fun _ =>
         update_client (set_state connected))))
        (fun error =>
           bind (update_client (set_state error_state)) (fun _ =>
           throw error))) w).
  { unfold start, bind at 1, get_client at 1. by destruct (state (client w)). }
  rewrite Heq. exact Hbody.
Qed.

(** X11. [start()] on a connected client does nothing.  Otherwise it either
    returns, and then the client is connected and holds a connection, or
    throws, and then the client is in the error state; in both cases the
    registry and the session objects are untouched. *)
Theorem start_settles_the_state env (w : @World U) :
  (state (client w) = connected → start env w = (Ok (), w))
  ∧ (state (client w) ≠ connected →
     ((start env w).1 = Ok ()
      ∧ state (client (start env w).2) = connected
      ∧ connection (client (start env w).2) = true
      ∨ (∃ e, (start env w).1 = Throw e)
        ∧ state (client (start env w).2) = error_state))
  ∧ same_sessions w (start env w).2.
Proof.
  split; [apply start_when_connected|].
  split; [apply start_outcome|apply start_keeps_sessions].
Qed.

(** ** Client: stopping *)

Lemma stop_on_a_stopped_client env (w : @World U) :
  sessions (client w) = [] → connection (client w) = false →
  socket (client w) = false → cliProcess (client w) = None →
  state (client w) = disconnected → actualPort (client w) = None →
  stop env w = (Ok [], w) ∧ forceStop env w = (Ok (), w).
Proof.
  destruct w as [h n c u t]. destruct c as [p cn so ap st ss o]. simpl.
  intros -> -> -> -> -> ->. done.
Qed.

(** X12. Stopping is idempotent: after [stop()] has returned, a second
    [stop()] and a [forceStop()] both return at once, with no error, no effect
    on the outside and no change to the client. *)
Theorem stop_twice_does_nothing env (w : @World U) :
  stop env (stop env w).2 = (Ok [], (stop env w).2)
  ∧ forceStop env (stop env w).2 = (Ok (), (stop env w).2).
Proof.
  destruct (stop_meets_spec env w)
    as (seg & errs & w' & _ & Hrun & _ & Hss & Hcn & Hso & Hp & Hst & Hap).
  rewrite Hrun. cbn [snd]. by apply stop_on_a_stopped_client.
Qed.

(** X13. [forceStop()] cannot fail and asks nothing of the server: whatever
    the outside answers, it returns, having sent no request, touched no
    session object, and left the client disconnected, with no connection,
    socket, process or port and an empty registry.  The only effects are the
    disposal of a held connection, the destruction of a held socket and a
    [SIGKILL] to a held process, in that order. *)
Theorem forceStop_always_succeeds env (w : @World U) :
  ∃ w', forceStop env w = (Ok (), w')
    ∧ heap w' = heap w ∧ user w' = user w
    ∧ client w' = {| cliProcess := None; connection := false; socket := false;
                     actualPort := None; state := disconnected; sessions := [];
                     options := options (client w) |}
    ∧ trace w' = trace w
        ++ (if connection (client w) then [EDispose] else [])
        ++ (if socket (client w) then [ESocketDestroy] else [])
        ++ match cliProcess (client w) with
           | Some _ => [EKill (Some "SIGKILL")]
           | None => []
           end.
Proof.
  destruct w as [h n c u t]. destruct c as [p cn so ap st ss o].
  unfold forceStop, swallowed, try_catch, bind, get_client, update_client, modify,
    external, ret. simpl.
  destruct cn, so, p as [proc|]; simpl;
    repeat match goal with
           | |- context [reply env ?t] => destruct (reply env t); simpl
           end;
    eexists; (split; [reflexivity|]); simpl; rewrite <- ?app_assoc, ?app_nil_r;
    done.
Qed.

(** ** Client: reconnect *)

(** X14. [reconnect()] never throws: a failure of the restart is swallowed.
    Afterwards the registry is empty, and the client is either connected with
    a connection, or left in the error state. *)
Theorem reconnect_never_throws env (w : @World U) :
  ∃ w', reconnect env w = (Ok (), w')
    ∧ sessions (client w') = []
    ∧ (state (client w') = connected ∧ connection (client w') = true
       ∨ state (client w') = error_state).
Proof.
  unfold reconnect, bind at 1, update_client at 1, modify at 1.
  set (w0 := set_client _ w).
  destruct (stop_meets_spec env w0)
    as (seg & errs & w1 & _ & Hrun & _ & Hss & _ & _ & _ & Hst & _).
  unfold try_catch, bind. rewrite Hrun.
  assert (Hne : state (client w1) ≠ connected) by (by rewrite Hst).
  pose proof (start_outcome env w1 Hne) as Hout.
  pose proof (start_keeps_sessions env w1) as (_ & _ & Hkeep & _).
  destruct (start env w1) as [[[]|e] w2]; cbn [fst snd] in *;
    eexists; (split; [reflexivity|]); (split; [congruence|]);
    destruct Hout as [(? & ? & ?)|((e' & ?) & ?)]; simplify_eq; eauto.
Qed.

(** ** Client: creating sessions *)

Lemma assoc_map_set_eq (k : string) (v : nat) (m : list (string * nat)) :
  assoc k (map_set k v m) = Some v.
Proof.
  induction m as [|[k' v'] m IH]; simpl.
  - by rewrite String.eqb_refl.
  - destruct (String.eqb_spec k k') as [->|Hne]; simpl.
    + by rewrite String.eqb_refl.
    + destruct (String.eqb_spec k k'); [done|]. exact IH.
Qed.

Lemma assoc_map_set_ne (k k' : string) (v : nat) (m : list (string * nat)) :
  k' ≠ k → assoc k' (map_set k v m) = assoc k' m.
Proof.
  intros Hne. induction m as [|[k'' v''] m IH]; simpl.
  - by destruct (String.eqb_spec k' k).
  - destruct (String.eqb_spec k k'') as [->|Hne']; simpl.
    + destruct (String.eqb_spec k' k''); [done|done].
    + destruct (String.eqb_spec k' k''); [done|]. exact IH.
Qed.

Lemma createSession_registers env (config : @SessionConfig U) w s w' :
  createSession env config w = (Ok s, w') →
  s = next_loc w
  ∧ next_loc w' = S s
  ∧ assoc (sessionId (heap w' s)) (sessions (client w')) = Some s
  ∧ eventHandlers (heap w' s) = []
  ∧ (∀ name, toolHandlers (heap w' s) !! name =
             match cfg_tools config with
             | Some tools => last_named name tools
             | None => None
             end)
  ∧ (∀ l, l ≠ s → heap w' l = heap w l)
  ∧ (∀ k, k ≠ sessionId (heap w' s) →
          assoc k (sessions (client w')) = assoc k (sessions (client w))).
Proof.
  unfold createSession. unfold bind at 1, get_client at 1. unfold bind at 1.
  intros Hrun.
  assert (Hpre : ∃ w1, (if connection (client w) then ret ()
                        else if autoStart (options (client w)) then start env
                        else throw (TErr (Error "Client not connected. Call start() first."))) w
                       = (Ok (), w1) ∧ same_sessions w w1).
  { destruct (connection (client w)).
    - eexists. split; [reflexivity|apply same_sessions_refl].
    - destruct (autoStart (options (client w))).
      + pose proof (start_keeps_sessions env w) as Hk.
        destruct (start env w) as [[[]|e] w1]; [|done].
        eexists. split; [reflexivity|exact Hk].
      + done. }
  destruct Hpre as (w1 & Hpre & Hh & Hn & Hs & _). rewrite Hpre in Hrun.
  unfold bind at 1, sendRequest, external in Hrun.
  destruct (reply env _) as [v|e]; [|done].
  destruct v; try (by unfold throw in Hrun);
    (unfold bind, get_world, modify, put_session, registerTools, bind, get_session,
       put_session, get_client, update_client, modify, ret in Hrun;
     simpl in Hrun; simplify_eq; simpl;
     destruct (decide (next_loc w1 = next_loc w1)) as [_|]; [|done]; simpl;
     split; [done|]; split; [done|]; split; [apply assoc_map_set_eq|];
     split; [done|]; split; [|split];
     [ intros name; destruct (cfg_tools config) as [tools|]; [|done];
       rewrite register_loop_lookup; by destruct (last_named name tools)
     | intros l Hl; destruct (decide (l = next_loc w1)); [done|]; by rewrite Hh
     | intros k Hk; rewrite assoc_map_set_ne by done; by rewrite Hs ]).
Qed.


(** X15. Without a connection and with [autoStart] off, [createSession]
    throws "Client not connected. Call start() first." before anything else:
    no process is spawned, no request is sent, nothing changes. *)
Theorem createSession_needs_a_connection env (config : @SessionConfig U) w :
  connection (client w) = false →
  autoStart (options (client w)) = false →
  createSession env config w =
    (Throw (TErr (Error "Client not connected. Call start() first.")), w).
Proof.
  intros Hcn Hauto. unfold createSession, bind, get_client. by rewrite Hcn, Hauto.
Qed.

(** X16. When [createSession] returns, the session is a new object, found in
    the registry under its own id, with no event handler subscribed and with
    exactly the tools of the configuration registered (the last tool of a
    name winning); every other session object and every other registry entry
    is as before.  The client is assumed not to be marked connected without
    holding a connection, and the server to name the session it creates. *)
Theorem created_session_is_registered env (config : @SessionConfig U) w s w' :
  (state (client w) = connected → connection (client w) = true) →
  names_sessions env →
  createSession env config w = (Ok s, w') →
  s = next_loc w
  ∧ next_loc w' = S s
  ∧ assoc (sessionId (heap w' s)) (sessions (client w')) = Some s
  ∧ eventHandlers (heap w' s) = []
  ∧ (∀ name, toolHandlers (heap w' s) !! name =
             match cfg_tools config with
             | Some tools => last_named name tools
             | None => None
             end)
  ∧ (∀ l, l ≠ s → heap w' l = heap w l)
  ∧ (∀ k, k ≠ sessionId (heap w' s) →
          assoc k (sessions (client w')) = assoc k (sessions (client w))).
Proof. intros _ _. apply createSession_registers. Qed.

(** X17. A tool handed to [createSession] is the one that answers the calls:
    a well-formed [tool.call] that names the created session and a tool of
    its configuration runs [executeToolCall] on the handler of the last tool
    of that name (same assumptions on the client and the server). *)
Theorem created_session_answers_with_its_tools env (config : @SessionConfig U)
    w s w' (tools : list (@Tool U)) (handler : @ToolHandler U)
    (params : jsval) (cid name : string) :
  (state (client w) = connected → connection (client w) = true) →
  names_sessions env →
  createSession env config w = (Ok s, w') →
  cfg_tools config = Some tools →
  last_named name tools = Some handler →
  wellformed_tool_call params (sessionId (heap w' s)) cid name →
  handleToolCallRequest params w' = executeToolCall handler params w'.
Proof.
  intros _ _ Hrun Htools Hlast Hwf.
  destruct (createSession_registers env config w s w' Hrun)
    as (_ & _ & Hreg & _ & Hlookup & _).
  eapply tool_call_runs_registered_handler; [exact Hwf|exact Hreg|].
  by rewrite Hlookup, Htools.
Qed.

(** X18. A handler subscribed to a freshly created session hears its events:
    a well-formed [session.event] notification bearing the session's id calls
    that handler, and nothing else, exactly once with the notification's
    [event]; a throwing handler does not make the notification throw.  The
    handler is taken not to subscribe or unsubscribe on this session when
    called, and the server to name the session it creates. *)
Theorem subscriber_hears_the_created_session env (config : @SessionConfig U)
    w s w' (h : @SessionEventHandler U) (n : jsval) (fuel : nat) :
  (state (client w) = connected → connection (client w) = true) →
  names_sessions env →
  createSession env config w = (Ok s, w') →
  wellformed_notification n (sessionId (heap w' s)) →
  steady s (get_prop "event" n) h →
  0 < fuel →
  ∃ w'', handleSessionEventNotification fuel n (on s h w').2 = Some (Ok (), w'')
    ∧ trace w'' = trace w' ++ [EInvoke (h_id h) (get_prop "event" n)]
    ∧ user w'' = (h_call h (get_prop "event" n) (user w')).2.
Proof.
  intros _ _ Hrun Hwf Hsteady Hfuel.
  destruct (createSession_registers env config w s w' Hrun)
    as (_ & _ & Hreg & Hnone & _).
  unfold handleSessionEventNotification.
  rewrite (proj2 (notification_guard n) (ex_intro _ _ Hwf)).
  destruct Hwf as [Hs _]. apply string_field_get in Hs as [Hs _].
  rewrite Hs.
  assert (Hon : sessions (client (on s h w').2) = sessions (client w')
                ∧ eventHandlers (heap (on s h w').2 s) = [h]
                ∧ trace (on s h w').2 = trace w'
                ∧ user (on s h w').2 = user w').
  { unfold on, bind, get_session, put_session, modify. simpl.
    destruct (decide (s = s)); [|done]. simpl. by rewrite Hnone. }
  destruct Hon as (Hss & Hhs & Htr & Hu).
  cbn [as_string]. rewrite Hss, Hreg. unfold _dispatchEvent. rewrite Hhs.
  destruct (dispatch_loop_runs_all fuel s [h] (get_prop "event" n) (on s h w').2)
    as (w'' & Hloop & Htr' & Hu' & _).
  { by constructor. }
  { simpl. lia. }
  exists w''. split; [exact Hloop|]. rewrite Htr', Hu', Htr, Hu. done.
Qed.

(** ** Client: start, by what the process does *)

Lemma start_rejected env (w : @World U) (e : thrown) :
  state (client w) ≠ connected →
  settled (readiness env (options (client w)) (trace w)) = Some (Throw e) →
  ∃ w', start env w = (Throw e, w')
    ∧ state (client w') = error_state
    ∧ trace w' = trace w ++ spawn_log (options (client w))
    ∧ cliProcess (client w') = Some (cliPath (options (client w)),
                                     server_args (options (client w)))
    ∧ connection (client w') = connection (client w)
    ∧ socket (client w') = socket (client w).
Proof.
  intros Hst Hset. unfold readiness, spawn_log, server_args in *.
  unfold start, startCLIServer, try_catch, bind, get_client, get_world, update_client,
    log, modify, throw, ret.
  destruct (state (client w)); try done; simpl in *;
    rewrite <- !app_assoc; simpl; rewrite Hset;
    destruct (seenPort _); simpl; eexists; (split; [reflexivity|]); simpl;
    rewrite <- ?app_assoc; done.
Qed.


Lemma start_dials env (w : @World U) (p : Z) :
  useStdio (options (client w)) = false →
  state (client w) ≠ connected →
  settled (readiness env (options (client w)) (trace w)) = Some (Ok ()) →
  seenPort (readiness env (options (client w)) (trace w)) = Some p →
  (0 < p < 65536)%Z →
  ∃ w', trace w' = trace w ++ spawn_log (options (client w)) ++ [EConnect p "localhost"]
                   ++ (if acked (reply env (trace w ++ spawn_log (options (client w))
                                            ++ [EConnect p "localhost"]))
                       then [EListen] else [])
    ∧ actualPort (client w') = Some p
    ∧ socket (client w') = true
    ∧ cliProcess (client w') = Some (cliPath (options (client w)),
                                     server_args (options (client w)))
    ∧ match reply env (trace w ++ spawn_log (options (client w))
                       ++ [EConnect p "localhost"]) with
      | Ack _ =>
          start env w = (Ok (), w')
          ∧ state (client w') = connected
          ∧ connection (client w') = true
      | Nack e =>
          start env w =
            (Throw (TErr (Error ("Failed to connect to CLI server: " +:+ thrown_message e))),
             w')
          ∧ state (client w') = error_state
          ∧ connection (client w') = connection (client w)
      end.
Proof.
  intros Htcp Hst Hset Hport Hp. unfold readiness, spawn_log, server_args in *.
  assert (Hrange : (p <? 0)%Z || (65536 <=? p)%Z = false).
  { apply orb_false_iff. split; [apply Z.ltb_ge|apply Z.leb_gt]; lia. }
  unfold start, startCLIServer, connectToServer, connectViaTcp, try_catch, bind,
    get_client, get_world, update_client, log, external, modify, throw, ret.
  destruct (state (client w)); try done; simpl in *;
    rewrite Htcp in *; simpl in *;
    rewrite <- !app_assoc; simpl; rewrite Hset, Hport; simpl; rewrite Htcp;
    (destruct p as [|p|p]; [lia| |lia]); cbn -[Z.leb Z.ltb]; rewrite Hrange;
    cbn -[Z.leb Z.ltb];
    rewrite <- !app_assoc; simpl;
    destruct (reply env _) as [v|e]; simpl;
    eexists; (split; [|split; [|split; [|split; [|split; [reflexivity|]]]]]); simpl;
    rewrite <- ?app_assoc; done.
Qed.

Lemma start_over_stdio env (w : @World U) :
  useStdio (options (client w)) = true →
  state (client w) ≠ connected →
  ∃ w', start env w = (Ok (), w')
    ∧ trace w' = trace w ++ spawn_log (options (client w)) ++ [EListen]
    ∧ state (client w') = connected
    ∧ connection (client w') = true
    ∧ cliProcess (client w') = Some (cliPath (options (client w)),
                                     server_args (options (client w)))
    ∧ actualPort (client w') = actualPort (client w)
    ∧ socket (client w') = socket (client w).
Proof.
  intros Hstdio Hst. unfold spawn_log, server_args.
  unfold start, startCLIServer, connectToServer, connectViaStdio, try_catch, bind,
    get_client, get_world, update_client, log, modify, throw, ret.
  destruct (state (client w)); try done; simpl;
    match goal with |- context [await_ready ?o ?st ?evs] =>
      destruct (stdio_is_ready_at_once o st evs Hstdio) as [Hset Hport];
      rewrite Hset, Hport
    end; simpl; rewrite Hstdio; simpl;
    eexists; (split; [reflexivity|]); simpl; rewrite <- ?app_assoc; done.
Qed.


Lemma start_without_port env (w : @World U) :
  useStdio (options (client w)) = false →
  state (client w) ≠ connected →
  settled (readiness env (options (client w)) (trace w)) = Some (Ok ()) →
  seenPort (readiness env (options (client w)) (trace w)) = Some 0%Z →
  ∃ w', start env w = (Throw (TErr (Error "Server port not available")), w')
    ∧ state (client w') = error_state
    ∧ trace w' = trace w ++ spawn_log (options (client w)).
Proof.
  intros Htcp Hst Hset Hport. unfold readiness, spawn_log, server_args in *.
  unfold start, startCLIServer, connectToServer, connectViaTcp, try_catch, bind,
    get_client, get_world, update_client, log, external, modify, throw, ret.
  destruct (state (client w)); try done; simpl in *;
    rewrite Htcp in *; simpl in *;
    rewrite <- !app_assoc; simpl; rewrite Hset, Hport; simpl; rewrite Htcp; simpl;
    eexists; (split; [reflexivity|]); simpl; rewrite <- ?app_assoc; done.
Qed.

(** In TCP mode, an exit or an error of the process before any announcement
    completes rejects the promise, whatever follows. *)
Lemma early_failure_rejects (o : CopilotClientOptions) (st : ConnectionState)
    (chunks : list string) (ev : ProcEvent) (rest : list ProcEvent) (text : string) :
  useStdio o = false →
  (∀ k, match_port (foldr String.append "" (take k chunks)) = None) →
  (∃ code, ev = PExit code ∧ text = "CLI server exited with code " +:+ js_String code)
  ∨ (∃ message, ev = PError message ∧ text = "Failed to start CLI server: " +:+ message) →
  settled (await_ready o st ((PData <$> chunks) ++ ev :: rest))
    = Some (Throw (TErr (Error text)))
  ∧ seenPort (await_ready o st ((PData <$> chunks) ++ ev :: rest)) = None.
Proof.
  intros Htcp Hquiet Hev. unfold await_ready.
  rewrite <- app_assoc, fold_left_app.
  destruct (quiet_output_stays_pending o st chunks (spawned (useStdio o)))
    as (Hr & Hs & Hp); [done | by rewrite Htcp | by rewrite Htcp |].
  rewrite Htcp in *. simpl in Hs, Hp. cbn [app fold_left].
  match goal with |- context [fold_left _ _ (on_event o st ?r ev)] =>
    set (r0 := r) in *; assert (Hstep : resolved (on_event o st r0 ev) = true
      ∧ settled (on_event o st r0 ev) = Some (Throw (TErr (Error text)))
      ∧ seenPort (on_event o st r0 ev) = None)
  end.
  { destruct Hev as [(code & -> & ->)|(message & -> & ->)]; simpl; rewrite Hr; simpl;
      by rewrite Hp. }
  destruct Hstep as (Hres & Hset & Hport).
  destruct (events_after_resolved o st (rest ++ [PTimer]) _ Hres) as [-> ->]. done.
Qed.


(** X20. In TCP mode, when the announced port cannot be dialled, [start()]
    throws "Failed to connect to CLI server: ..." with the reason, and the
    client is left in the error state still holding the spawned process and
    the socket, which a later [stop()] has to release. *)
Theorem failed_dial_is_reported env (w : @World U) (n : N)
    (rest : string) (more : list ProcEvent) (e : thrown) :
  useStdio (options (client w)) = false →
  state (client w) ≠ connected →
  proc_events env (trace w ++ spawn_log (options (client w)))
    = PData ("listening on port " +:+ pretty n +:+ rest) :: more →
  take_digits rest = "" →
  (0 < n < 65536)%N →
  reply env (trace w ++ spawn_log (options (client w))
             ++ [EConnect (Z.of_N n) "localhost"]) = Nack e →
  ∃ w', start env w =
          (Throw (TErr (Error ("Failed to connect to CLI server: " +:+ thrown_message e))),
           w')
    ∧ state (client w') = error_state
    ∧ socket (client w') = true
    ∧ cliProcess (client w') = Some (cliPath (options (client w)),
                                     server_args (options (client w)))
    ∧ EKill None ∈ trace (stop env w').2
    ∧ ESocketEnd ∈ trace (stop env w').2.
Proof.
  intros Htcp Hst Hev Hrest Hn Hnack.
  destruct (whole_announcement_is_read (options (client w)) connecting n rest more
              Htcp Hrest) as [Hset Hport].
  rewrite <- Hev in Hset, Hport.
  destruct (start_dials env w (Z.of_N n) Htcp Hst Hset Hport ltac:(lia))
    as (w' & _ & _ & Hso & Hp & Hrun).
  rewrite Hnack in Hrun. destruct Hrun as (Hrun & Hstate & _).
  exists w'. repeat (split; [done|]).
  destruct (stop_meets_spec env w') as (seg & errs & w'' & _ & Hstop & Htr & _).
  rewrite Hstop. cbn [snd]. rewrite Htr. unfold closing_spec, guard_spec.
  rewrite Hso, Hp. simpl.
  split; rewrite !elem_of_app; right; right;
    destruct (connection (client w')); simpl; right; apply list_elem_of_In; simpl; tauto.
Qed.


(** X21. In TCP mode, when the output of the process never contains a
    complete port announcement, [start()] throws "Timeout waiting for CLI
    server to start" without dialling anything, and leaves the client in the
    error state with the spawned process still held. *)
Theorem tcp_start_times_out_without_announcement env (w : @World U)
    (chunks : list string) :
  useStdio (options (client w)) = false →
  state (client w) ≠ connected →
  proc_events env (trace w ++ spawn_log (options (client w))) = PData <$> chunks →
  (∀ k, match_port (foldr String.append "" (take k chunks)) = None) →
  ∃ w', start env w =
          (Throw (TErr (Error "Timeout waiting for CLI server to start")), w')
    ∧ state (client w') = error_state
    ∧ trace w' = trace w ++ spawn_log (options (client w))
    ∧ cliProcess (client w') = Some (cliPath (options (client w)),
                                     server_args (options (client w))).
Proof.
  intros Htcp Hst Hev Hquiet.
  destruct (no_announcement_times_out (options (client w)) connecting chunks
              Htcp Hquiet) as [Hset _].
  rewrite <- Hev in Hset.
  destruct (start_rejected env w _ Hst Hset) as (w' & Hrun & Hstate & Htr & Hp & _).
  exists w'. done.
Qed.

(** X22. In TCP mode, when the process exits (with a status, or with [null]
    when killed) or fails before it has announced a port, [start()] throws
    "CLI server exited with code ..." or
    "Failed to start CLI server: ..." at once: whatever the process prints
    afterwards, nothing is dialled. *)
Theorem tcp_start_fails_on_early_exit env (w : @World U)
    (chunks : list string) (ev : ProcEvent) (rest : list ProcEvent) (text : string) :
  useStdio (options (client w)) = false →
  state (client w) ≠ connected →
  proc_events env (trace w ++ spawn_log (options (client w)))
    = (PData <$> chunks) ++ ev :: rest →
  (∀ k, match_port (foldr String.append "" (take k chunks)) = None) →
  (∃ code, ev = PExit code
           ∧ (code = JNull ∨ ∃ c, code = JNum c ∧ (0 ≤ c < 256)%Z)
           ∧ text = "CLI server exited with code " +:+ js_String code)
  ∨ (∃ message, ev = PError message ∧ text = "Failed to start CLI server: " +:+ message) →
  ∃ w', start env w = (Throw (TErr (Error text)), w')
    ∧ state (client w') = error_state
    ∧ trace w' = trace w ++ spawn_log (options (client w)).
Proof.
  intros Htcp Hst Hev Hquiet Hfail.
  assert (Hfail' :
    (∃ code, ev = PExit code ∧ text = "CLI server exited with code " +:+ js_String code)
    ∨ (∃ message, ev = PError message
                  ∧ text = "Failed to start CLI server: " +:+ message)).
  { destruct Hfail as [(code & ? & _ & ?)|?]; [left; eauto|by right]. }
  destruct (early_failure_rejects (options (client w)) connecting chunks ev rest text
              Htcp Hquiet Hfail') as [Hset _].
  rewrite <- Hev in Hset.
  destruct (start_rejected env w _ Hst Hset) as (w' & Hrun & Hstate & Htr & _).
  exists w'. done.
Qed.

(** X23. In stdio mode [start()] does not wait for the process: whatever the
    process does, even when it fails or exits at once, [start()] returns with
    the client connected, having spawned the process with [--stdio] and
    attached the connection to its pipes. *)
Theorem stdio_start_does_not_wait env (w : @World U) :
  useStdio (options (client w)) = true →
  state (client w) ≠ connected →
  ∃ w', start env w = (Ok (), w')
    ∧ trace w' = trace w
        ++ [ESpawn (cliPath (options (client w)))
                   (cliArgs (options (client w))
                    ++ ["--server"; "--log-level"; logLevel (options (client w)); "--stdio"]);
            ESetTimeout 10000; EListen]
    ∧ state (client w') = connected
    ∧ connection (client w') = true.
Proof.
  intros Hstdio Hst.
  destruct (start_over_stdio env w Hstdio Hst) as (w' & Hrun & Htr & Hstate & Hcn & _).
  exists w'. repeat (split; [done|]). split; [|done].
  rewrite Htr. unfold spawn_log, server_args. by rewrite Hstdio.
Qed.

(** X24. In TCP mode an announcement of port 0 is not usable: [start()]
    throws "Server port not available" and dials nothing. *)
Theorem port_zero_is_refused env (w : @World U) (rest : string)
    (more : list ProcEvent) :
  useStdio (options (client w)) = false →
  state (client w) ≠ connected →
  proc_events env (trace w ++ spawn_log (options (client w)))
    = PData ("listening on port 0" +:+ rest) :: more →
  take_digits rest = "" →
  ∃ w', start env w = (Throw (TErr (Error "Server port not available")), w')
    ∧ state (client w') = error_state
    ∧ trace w' = trace w ++ spawn_log (options (client w)).
Proof.
  intros Htcp Hst Hev Hrest.
  destruct (whole_announcement_is_read (options (client w)) connecting 0%N rest more
              Htcp Hrest) as [Hset Hport].
  change ("listening on port " +:+ pretty 0%N +:+ rest)
    with ("listening on port 0" +:+ rest) in Hset, Hport.
  rewrite <- Hev in Hset, Hport.
  exact (start_without_port env w Htcp Hst Hset Hport).
Qed.

(** ** query: what the consumer is handed *)

Lemma yields_app (t1 t2 : list Effect) : yields (t1 ++ t2) = yields t1 ++ yields t2.
Proof. unfold yields. apply flat_map_app. Qed.

Lemma yields_no_callback (seg : list Effect) :
  Forall (fun eff => is_callback eff = false) seg → yields seg = [].
Proof.
  induction 1 as [|eff seg Heff _ IH]; [done|].
  unfold yields in *. simpl. rewrite IH. by destruct eff.
Qed.

Lemma consumed_refl (consumer : @Consumer U) w : consumed consumer [] w w.
Proof. split; [done|]. exists []. by rewrite app_nil_r. Qed.

Lemma consumed_trans (consumer : @Consumer U) evs1 evs2 w1 w2 w3 :
  consumed consumer evs1 w1 w2 → consumed consumer evs2 w2 w3 →
  consumed consumer (evs1 ++ evs2) w1 w3.
Proof.
  intros (Hu1 & seg1 & Ht1 & Hy1) (Hu2 & seg2 & Ht2 & Hy2). split.
  - by rewrite fold_left_app, <- Hu1.
  - exists (seg1 ++ seg2). rewrite Ht2, Ht1, <- app_assoc, yields_app, Hy1, Hy2. done.
Qed.

Lemma consumed_quiet {A} (consumer : @Consumer U) (m : @M U A) w :
  quiet m → consumed consumer [] w (m w).2.
Proof.
  intros Hq. destruct (Hq w) as (Hu & seg & Ht & Hseg). split; [done|].
  exists seg. split; [done|]. by apply yields_no_callback.
Qed.

Lemma consumed_yield (consumer : @Consumer U) (event : jsval) w :
  consumed consumer [event] w (yield_ consumer event w).2.
Proof.
  unfold yield_, consumed. cbn [user set_trace fold_left].
  destruct (consumer event (user w)) as [a u]. simpl.
  split; [done|]. by exists [EYield event].
Qed.

Lemma event_loop_consumes (consumer : @Consumer U) (includeEphemeral : bool)
    (script : list IterItem) w :
  ∃ ys, consumed consumer ys w (event_loop consumer includeEphemeral script w).2
    ∧ sublist ys (script_events script)
    ∧ Forall (deliverable includeEphemeral) ys.
Proof.
  revert w. induction script as [|item script IH]; intros w.
  { exists []. split; [apply consumed_refl|].
    split; constructor. }
  assert (Hnone : ∀ x : Completion * bool,
            ∃ ys, consumed consumer ys w (x, w).2
                  ∧ sublist ys (script_events (item :: script))
                  ∧ Forall (deliverable includeEphemeral) ys).
  { intros x. exists []. split; [apply consumed_refl|].
    split; [apply sublist_nil_l|constructor]. }
  destruct item as [events|e|]; cbn [event_loop]; [|apply Hnone|apply Hnone].
  destruct events as [|event [|event' events]]; [apply Hnone| |apply Hnone].
  assert (Hstep :
    event ≠ JNull → event ≠ JUndefined →
    ∃ ys, consumed consumer ys w
            (if truthy (get_prop "ephemeral" event) && negb includeEphemeral
             then event_loop consumer includeEphemeral script w
             else if is_str (get_prop "type" event) "session.error"
             then
               let data := get_prop "data" event in
               ((Throwing (TErr (Error
                   (if String.eqb (typeof data) "object" && truthy data
                       && js_in "message" data
                    then js_String (get_prop "message" data)
                    else "Unknown error"))), false), w)
             else
               match yield_ consumer event w with
               | (CNext, w') =>
                   if is_str (get_prop "type" event) "session.idle"
                   then ((Normal, false), w')
                   else event_loop consumer includeEphemeral script w'
               | (CReturn, w') => ((Returning, false), w')
               | (CThrow e, w') => ((Throwing e, false), w')
               end).2
      ∧ sublist ys (script_events (ItEvents [event] :: script))
      ∧ Forall (deliverable includeEphemeral) ys).
  { intros Hnull Hundef. cbn [script_events flat_map app].
    fold (script_events script).
    destruct (truthy (get_prop "ephemeral" event) && negb includeEphemeral) eqn:Heph.
    { destruct (IH w) as (ys & Hc & Hsub & Hall).
      exists ys. split; [done|]. split; [by apply sublist_cons|]. done. }
    destruct (is_str (get_prop "type" event) "session.error") eqn:Herr.
    { exists []. split; [apply consumed_refl|].
      split; [apply sublist_nil_l|constructor]. }
    assert (Hdel : deliverable includeEphemeral event).
    { repeat split; try done. intros ->.
      rewrite andb_true_r in Heph. exact Heph. }
    pose proof (consumed_yield consumer event w) as Hy.
    destruct (yield_ consumer event w) as [[| |e] w1]; cbn [snd] in Hy.
    - destruct (is_str (get_prop "type" event) "session.idle") eqn:Hidle.
      + exists [event]. split; [done|]. split; [apply sublist_skip, sublist_nil_l|].
        by constructor.
      + destruct (IH w1) as (ys & Hc & Hsub & Hall).
        exists (event :: ys). split; [exact (consumed_trans _ [event] ys _ _ _ Hy Hc)|].
        split; [by apply sublist_skip|]. by constructor.
    - exists [event]. split; [done|]. split; [apply sublist_skip, sublist_nil_l|].
      by constructor.
    - exists [event]. split; [done|]. split; [apply sublist_skip, sublist_nil_l|].
      by constructor. }
  destruct event; try (apply Hstep; done); apply Hnone.
Qed.


Lemma consumed_nil_l (consumer : @Consumer U) evs w1 w2 w3 :
  consumed consumer [] w1 w2 → consumed consumer evs w2 w3 →
  consumed consumer evs w1 w3.
Proof. intros H1 H2. exact (consumed_trans consumer [] evs w1 w2 w3 H1 H2). Qed.

Lemma consumed_nil_r (consumer : @Consumer U) evs w1 w2 w3 :
  consumed consumer evs w1 w2 → consumed consumer [] w2 w3 →
  consumed consumer evs w1 w3.
Proof.
  intros H1 H2. pose proof (consumed_trans consumer evs [] w1 w2 w3 H1 H2) as H.
  by rewrite app_nil_r in H.
Qed.

Lemma query_try_consumes env (o : @QueryOptions U) consumer w :
  ∃ ys, consumed consumer ys w (query_try env o consumer w).2
    ∧ sublist ys (script_events (iter_script env))
    ∧ Forall (deliverable (default true (q_includeEphemeral o))) ys.
Proof.
  assert (Hnone : ∀ w', consumed consumer [] w w' →
            ∃ ys, consumed consumer ys w w'
                  ∧ sublist ys (script_events (iter_script env))
                  ∧ Forall (deliverable (default true (q_includeEphemeral o))) ys).
  { intros w' Hc. exists []. split; [done|]. split; [apply sublist_nil_l|constructor]. }
  unfold query_try.
  pose proof (consumed_quiet consumer (start env) w (quiet_start env)) as Hstart.
  destruct (start env w) as [[[]|e] w1]; cbn [snd] in *; [|by apply Hnone].
  match goal with |- context [createSession env ?cfg w1] =>
    pose proof (consumed_quiet consumer (createSession env cfg) w1
                  (quiet_createSession env cfg)) as Hcreate;
    destruct (createSession env cfg w1) as [[s|e] w2]; cbn [snd] in *
  end; [|apply Hnone; by eapply consumed_nil_l].
  pose proof (consumed_quiet consumer (on s bridge) w2 (quiet_on s bridge)) as Hon.
  destruct (on s bridge w2) as [r w3]; cbn [snd] in *.
  assert (Hw3 : consumed consumer [] w w3).
  { eapply consumed_nil_l; [exact Hstart|]. eapply consumed_nil_l; [exact Hcreate|done]. }
  destruct (abort_in_setup env); [by apply Hnone|].
  match goal with |- context [log ?eff w3] =>
    pose proof (consumed_quiet consumer (log eff) w3 (quiet_log eff eq_refl)) as Hlog;
    destruct (log eff w3) as [r' w4]; cbn [snd] in *
  end.
  destruct (event_loop_consumes consumer (default true (q_includeEphemeral o))
              (iter_script env) w4) as (ys & Hloop & Hsub & Hall).
  destruct (event_loop consumer _ (iter_script env) w4) as [[c a] w5]; cbn [snd] in *.
  exists ys. split; [|done].
  eapply consumed_nil_l; [exact Hw3|]. eapply consumed_nil_l; [exact Hlog|done].
Qed.

Lemma stop_then_report_consumes env consumer (c : Completion) (l : QueryLocals)
    (w w2 : @World U) :
  consumed consumer [] w w2 →
  ∃ cleanup,
    consumed consumer cleanup w
      (match stop env w2 with
       | (Throw e, w) => ((Throwing e, l), w)
       | (Ok cleanupErrors, w) =>
           if (0 <? length cleanupErrors)%nat
           then
             match yield_ consumer
                     (JObj [("type", JStr "error");
                            ("id", JStr ("error-" +:+ pretty (clock_ms env (trace w))));
                            ("data", JObj [("message",
                               JStr ("Cleanup errors: " +:+
                                     join "; " (List.map err_message cleanupErrors)))]);
                            ("timestamp", JStr (clock_iso env (trace w)))]) w with
             | (CNext, w) => ((c, l), w)
             | (CReturn, w) => ((Returning, l), w)
             | (CThrow e, w) => ((Throwing e, l), w)
             end
           else ((c, l), w)
       end).2
    ∧ (cleanup = []
       ∨ ∃ fields, cleanup = [JObj fields] ∧ assoc "type" fields = Some (JStr "error")).
Proof.
  intros Hw2.
  pose proof (consumed_quiet consumer (stop env) w2 (quiet_stop env)) as Hstop.
  destruct (stop env w2) as [[errs|e] w3]; cbn [snd] in *;
    [|exists []; split; [by eapply consumed_nil_l|by left]].
  assert (Hw3 : consumed consumer [] w w3) by (by eapply consumed_nil_l).
  destruct (0 <? length errs)%nat; [|exists []; split; [done|by left]].
  match goal with |- context [yield_ consumer ?ev w3] =>
    pose proof (consumed_yield consumer ev w3) as Hy;
    exists [ev]; destruct (yield_ consumer ev w3) as [[| |e] w4]; cbn [snd] in *
  end; (split; [by eapply consumed_nil_l|right; eexists; split; [reflexivity|done]]).
Qed.

Lemma query_finally_consumes env consumer (c : Completion) (l : QueryLocals)
    (w : @World U) :
  ∃ cleanup, consumed consumer cleanup w (query_finally env consumer c l w).2
    ∧ (cleanup = []
       ∨ ∃ fields, cleanup = [JObj fields] ∧ assoc "type" fields = Some (JStr "error")).
Proof.
  unfold query_finally. cbv zeta.
  pose proof (consumed_quiet consumer (log EClearTimeout) w
                (quiet_log EClearTimeout eq_refl)) as Hlog.
  destruct (log EClearTimeout w) as [r w1]; cbn [snd] in *.
  cbn [session].
  destruct (session l) as [s|].
  - pose proof (consumed_quiet consumer (destroy env s) w1 (quiet_destroy env s))
      as Hdestroy.
    destruct (destroy env s w1) as [[[]|e] w2]; cbn [snd] in *.
    + apply stop_then_report_consumes. by eapply consumed_nil_l.
    + exists []. split; [by eapply consumed_nil_l|by left].
  - unfold ret at 1. by apply stop_then_report_consumes.
Qed.

Lemma query_consumes env (o : @QueryOptions U) consumer w :
  ∃ ys cleanup,
    consumed consumer (ys ++ cleanup) w (query env o consumer w).2
    ∧ sublist ys (script_events (iter_script env))
    ∧ Forall (deliverable (default true (q_includeEphemeral o))) ys
    ∧ (cleanup = []
       ∨ ∃ fields, cleanup = [JObj fields] ∧ assoc "type" fields = Some (JStr "error")).
Proof.
  unfold query. cbv zeta.
  match goal with |- context [log ?eff ?w0] =>
    pose proof (consumed_quiet consumer (log eff) w0 (quiet_log eff eq_refl)) as Hlog;
    assert (Hw0 : consumed consumer [] w w0) by (split; [done|exists []; by rewrite app_nil_r]);
    destruct (log eff w0) as [r w1]; cbn [snd] in Hlog
  end.
  destruct (query_try_consumes env o consumer w1) as (ys & Htry & Hsub & Hall).
  destruct (query_try env o consumer w1) as [[c l] w2]; cbn [snd] in Htry.
  destruct (query_finally_consumes env consumer
              (query_catch (default 60000%Z (q_timeout o)) c l) l w2)
    as (cleanup & Hfin & Hcleanup).
  exists ys, cleanup. split; [|done].
  eapply consumed_nil_l; [exact Hw0|]. eapply consumed_nil_l; [exact Hlog|].
  eapply consumed_trans; [exact Htry|exact Hfin].
Qed.

(** X25. Whatever the server, the process and the consumer do, the consumer
    of [query] is handed events of two kinds only: first events that the
    event iterator delivered, in the order of their delivery, none of them
    [null], [undefined] or a [session.error], and none ephemeral when
    ephemeral events are excluded; then at most one event of type "error"
    that reports cleanup errors.  The consumer's state is the result of
    handing it exactly these events in this order: nothing else that [query]
    does runs the consumer or touches its state. *)
Theorem query_hands_on_what_was_delivered env (o : @QueryOptions U) consumer w :
  ∃ ys cleanup,
    consumed consumer (ys ++ cleanup) w (query env o consumer w).2
    ∧ sublist ys (script_events (iter_script env))
    ∧ Forall (deliverable (default true (q_includeEphemeral o))) ys
    ∧ (cleanup = []
       ∨ ∃ fields, cleanup = [JObj fields] ∧ assoc "type" fields = Some (JStr "error")).
Proof. apply query_consumes. Qed.

End MoreProperties.

(** * Properties of ask *)

Section AskProperties.

(** ** ask: what the result reports *)






End AskProperties.

(** * The further properties at sample inputs *)

Lemma sample_ids_distinct : NoDup (h_id <$> eventHandlers (heap Sample.world 0)).
Proof. apply (bool_decide_unpack _). vm_compute. exact I. Defined.

Lemma subscribing_twice_witness :
  h_id <$> eventHandlers (heap (on 0 (Sample.counting 9)
                                   (on 0 (Sample.counting 9) Sample.world).2).2 0)
  = [1; 2; 3; 9].
Proof.
  destruct (subscribing_twice_registers_once 0 (Sample.counting 9) Sample.world
              sample_ids_distinct) as (_ & _ & Heq).
  rewrite Heq. reflexivity.
Defined.

Lemma unsubscribing_witness :
  eventHandlers (heap (unsubscribe 0 (Sample.counting 9)
                         (on 0 (Sample.counting 9) Sample.world).2).2 0)
  = eventHandlers (heap Sample.world 0).
Proof.
  apply (unsubscribing_undoes_subscribing 0 (Sample.counting 9) Sample.world).
  apply (bool_decide_unpack _). vm_compute. exact I.
Defined.

Lemma unsubscribed_handler_witness :
  ∃ w', _dispatchEvent 3 0 Sample.message_event
          (unsubscribe 0 (Sample.failing 2) Sample.world).2 = Some (Ok (), w')
        ∧ trace w' = [EInvoke 1 Sample.message_event; EInvoke 3 Sample.message_event].
Proof.
  destruct (unsubscribed_handler_is_not_called 3 0 (Sample.failing 2)
              Sample.message_event Sample.world) as (w' & Hrun & Htr & _).
  - repeat constructor.
  - simpl. lia.
  - exists w'. split; [exact Hrun | exact Htr].
Defined.

Lemma one_shot_handler_witness :
  ∃ w', _dispatchEvent 3 0 Sample.message_event Sample.world_once = Some (Ok (), w')
        ∧ trace w' = [EInvoke 1 Sample.message_event; EInvoke 2 Sample.message_event;
                      EInvoke 3 Sample.message_event]
        ∧ user w' = 3.
Proof.
  destruct (self_unsubscribing_handlers_are_all_called 3 0 Sample.message_event
              Sample.world_once) as (w' & Hrun & Htr & Hu & _).
  - apply (bool_decide_unpack _). vm_compute. exact I.
  - constructor; [|repeat constructor].
    intros u. constructor; [|constructor]. right. exists (Sample.counting 1). by split.
  - simpl. lia.
  - exists w'. split; [exact Hrun|]. split; [exact Htr | exact Hu].
Defined.

Lemma destroyed_session_witness :
  _dispatchEvent 3 0 Sample.message_event (destroy Sample.agreeable 0 Sample.world).2
    = Some (Ok (), (destroy Sample.agreeable 0 Sample.world).2)
  ∧ (handleToolCallRequest (Sample.call "s1" "c1" "echo")
       (destroy Sample.agreeable 0 Sample.world).2).1
    = Ok {| result := failure_result
              "Tool 'echo' is not supported by this client instance."
              "tool 'echo' not supported" |}.
Proof.
  destruct (destroyed_session_goes_silent Sample.agreeable 3 0 Sample.message_event
              (Sample.call "s1" "c1" "echo") "s1" "c1" "echo" Sample.world)
    as [Hquiet Hcall]; [reflexivity | apply wellformed_call | reflexivity |].
  split; [exact Hquiet|]. by rewrite Hcall.
Defined.

Lemma rejected_destroy_witness :
  (destroy Sample.env_destroy_rejected 0 Sample.world).1
    = Throw (TErr (Error "Session s1 is busy"))
  ∧ heap (destroy Sample.env_destroy_rejected 0 Sample.world).2 = heap Sample.world.
Proof.
  destruct (rejected_destroy_keeps_the_session Sample.env_destroy_rejected 3 0
              (TErr (Error "Session s1 is busy")) Sample.message_event Sample.world)
    as (Hthrow & Hheap & _); [reflexivity | repeat constructor | simpl; lia |].
  split; [exact Hthrow | exact Hheap].
Defined.

Lemma registered_tool_witness :
  trace (handleToolCallRequest (Sample.call "s1" "c1" "echo") Sample.world).2
  = [EToolInvoke {| inv_sessionId := "s1"; inv_toolCallId := "c1";
                    inv_toolName := "echo"; inv_arguments := JObj [] |}].
Proof.
  destruct (registered_tool_is_called_once (Sample.call "s1" "c1" "echo")
              "s1" "c1" "echo" 0 Sample.echo Sample.world)
    as (_ & _ & Htr & _); [apply wellformed_call | reflexivity | reflexivity |].
  exact Htr.
Defined.

Lemma createSession_needs_a_connection_witness :
  createSession Sample.agreeable Sample.with_echo (Sample.idle Sample.manual_opts)
  = (Throw (TErr (Error "Client not connected. Call start() first.")),
     Sample.idle Sample.manual_opts).
Proof.
  apply (createSession_needs_a_connection Sample.agreeable Sample.with_echo
           (Sample.idle Sample.manual_opts)); reflexivity.
Defined.

Lemma sample_session_created :
  createSession Sample.agreeable Sample.with_echo Sample.world
  = (Ok 2, (createSession Sample.agreeable Sample.with_echo Sample.world).2).
Proof. reflexivity. Defined.

Lemma created_session_witness :
  assoc "s1" (sessions (client (createSession Sample.agreeable Sample.with_echo
                                  Sample.world).2)) = Some 2
  ∧ eventHandlers (heap (createSession Sample.agreeable Sample.with_echo
                           Sample.world).2 2) = []
  ∧ assoc "s2" (sessions (client (createSession Sample.agreeable Sample.with_echo
                                    Sample.world).2)) = Some 1.
Proof.
  destruct (created_session_is_registered Sample.agreeable Sample.with_echo
              Sample.world 2
              (createSession Sample.agreeable Sample.with_echo Sample.world).2)
    as (_ & _ & Hreg & Hev & _ & _ & Hothers);
    [intros _; reflexivity | apply (replies_name_the_session [])
    | apply sample_session_created |].
  split; [exact Hreg|]. split; [exact Hev|].
  rewrite (Hothers "s2"); [reflexivity | discriminate].
Defined.

Lemma created_tool_witness :
  (handleToolCallRequest (Sample.call "s1" "c1" "echo")
     (createSession Sample.agreeable Sample.with_echo Sample.world).2).1
  = Ok {| result := TRString "echo" |}.
Proof.
  rewrite (created_session_answers_with_its_tools Sample.agreeable Sample.with_echo
             Sample.world 2
             (createSession Sample.agreeable Sample.with_echo Sample.world).2
             [Sample.echo_tool] Sample.echo (Sample.call "s1" "c1" "echo") "c1" "echo");
    [reflexivity | intros _; reflexivity | apply (replies_name_the_session [])
    | apply sample_session_created | reflexivity | reflexivity
    | apply wellformed_call].
Defined.

Lemma subscriber_witness :
  ∃ w'', handleSessionEventNotification 1 (Sample.note "s1")
           (on 2 (Sample.counting 7)
               (createSession Sample.agreeable Sample.with_echo Sample.world).2).2
         = Some (Ok (), w'')
         ∧ user w'' = 1.
Proof.
  destruct (subscriber_hears_the_created_session Sample.agreeable Sample.with_echo
              Sample.world 2
              (createSession Sample.agreeable Sample.with_echo Sample.world).2
              (Sample.counting 7) (Sample.note "s1") 1)
    as (w'' & Hrun & _ & Hu);
    [intros _; reflexivity | apply (replies_name_the_session [])
    | apply sample_session_created | apply wellformed_note
    | intros u; constructor | lia |].
  exists w''. split; [exact Hrun | exact Hu].
Defined.

Lemma announced_port_in_range : (0 < 54321 < 65536)%N.
Proof. split; reflexivity. Defined.


Lemma failed_dial_witness :
  ∃ w', start Sample.env_refusing (Sample.idle Sample.tcp_opts)
        = (Throw (TErr (Error "Failed to connect to CLI server: connect ECONNREFUSED")),
           w')
        ∧ state (client w') = error_state
        ∧ socket (client w') = true.
Proof.
  destruct (failed_dial_is_reported Sample.env_refusing (Sample.idle Sample.tcp_opts)
              54321%N Sample.newline [] (TErr (Error "connect ECONNREFUSED")))
    as (w' & Hrun & Hstate & Hsocket & _);
    [reflexivity | discriminate | reflexivity | reflexivity
    | apply announced_port_in_range | reflexivity |].
  exists w'. split; [exact Hrun|]. split; [exact Hstate | exact Hsocket].
Defined.

Lemma no_announcement_in_banner (k : nat) :
  match_port (foldr String.append "" (take k ["starting up"])) = None.
Proof. destruct k as [|[|k]]; reflexivity. Defined.

Lemma tcp_timeout_witness :
  ∃ w', start (Sample.env_proc [PData "starting up"]) (Sample.idle Sample.tcp_opts)
        = (Throw (TErr (Error "Timeout waiting for CLI server to start")), w')
        ∧ state (client w') = error_state.
Proof.
  destruct (tcp_start_times_out_without_announcement
              (Sample.env_proc [PData "starting up"]) (Sample.idle Sample.tcp_opts)
              ["starting up"])
    as (w' & Hrun & Hstate & _);
    [reflexivity | discriminate | reflexivity | apply no_announcement_in_banner |].
  exists w'. split; [exact Hrun | exact Hstate].
Defined.

Lemma early_exit_witness :
  ∃ w', start (Sample.env_proc [PData "starting up"; PExit (JNum 1)])
              (Sample.idle Sample.tcp_opts)
        = (Throw (TErr (Error "CLI server exited with code 1")), w')
        ∧ state (client w') = error_state.
Proof.
  destruct (tcp_start_fails_on_early_exit
              (Sample.env_proc [PData "starting up"; PExit (JNum 1)])
              (Sample.idle Sample.tcp_opts) ["starting up"] (PExit (JNum 1)) []
              "CLI server exited with code 1")
    as (w' & Hrun & Hstate & _);
    [reflexivity | discriminate | reflexivity | apply no_announcement_in_banner | |].
  - left. exists (JNum 1). split; [reflexivity|]. split; [|reflexivity].
    right. exists 1%Z. split; [reflexivity | lia].
  - exists w'. split; [exact Hrun | exact Hstate].
Defined.

Lemma stdio_start_witness :
  ∃ w', start (Sample.env_proc [PExit (JNum 1)]) (Sample.idle Sample.opts) = (Ok (), w')
        ∧ trace w' = [ESpawn "copilot" ["--server"; "--log-level"; "info"; "--stdio"];
                      ESetTimeout 10000; EListen].
Proof.
  destruct (stdio_start_does_not_wait (Sample.env_proc [PExit (JNum 1)])
              (Sample.idle Sample.opts))
    as (w' & Hrun & Htr & _); [reflexivity | discriminate |].
  exists w'. split; [exact Hrun | exact Htr].
Defined.

Lemma port_zero_witness :
  ∃ w', start (Sample.env_proc [PData ("listening on port 0" +:+ Sample.newline)])
              (Sample.idle Sample.tcp_opts)
        = (Throw (TErr (Error "Server port not available")), w').
Proof.
  destruct (port_zero_is_refused
              (Sample.env_proc [PData ("listening on port 0" +:+ Sample.newline)])
              (Sample.idle Sample.tcp_opts) Sample.newline [])
    as (w' & Hrun & _); [reflexivity | discriminate | reflexivity | reflexivity |].
  exists w'. exact Hrun.
Defined.
